(** * octowalrus: presigned-URL service and git workflow helper

    A shallow embedding of [services/file_service.py], [api/importer.py],
    [services/git.py] and the validators of [core/settings.py].

    Conventions of the embedding:
    - a Python [str] is a [string]; [Optional[str]] is [option string]; the
      field validators of the settings, which strip Unicode white space and
      change letter case, take a text as its sequence of code points;
    - a Python call either returns a value or raises: [outcome];
    - calls into the storage SDK (boto3) and into GitPython are recorded in
      a trace, so that "what was sent to the backend" and "no git operation
      was performed" are statements about data;
    - the libraries the code calls (urllib.parse, boto3, GitPython, shutil)
      are interfaces: the repository's functions are written over any
      implementation of them, and concrete instances are given for running
      the definitions;
    - logging calls have no effect on results and are left out. *)

From Stdlib Require Import ZArith String Ascii List Bool Lia.
From stdpp Require Import base option gmap strings list.

Open Scope string_scope.
Open Scope list_scope.
Open Scope Z_scope.

(** ** Python exceptions and outcomes *)

(** The exception values that occur in the program. [PyException] stands
    for any other class deriving from [Exception] (ValueError, KeyError,
    TypeError, ...), [PyBaseException] for the classes that derive from
    [BaseException] only (KeyboardInterrupt, SystemExit, CancelledError).
    [FileServiceError] and [HTTPException] carry the exception they were
    raised [from] (their [__cause__]). *)
Inductive exn : Type :=
| ClientError (msg : string)
| GitCommandError (msg : string)
| PyException (cls : string) (msg : string)
| PyBaseException (cls : string) (msg : string)
| RepositoryCloneError (msg : string) (cause : exn)
| FileServiceError (msg : string) (cause : exn)
| HTTPException (status_code : Z) (detail : string) (cause : exn).

Inductive outcome (A : Type) : Type :=
| Return (a : A)
| Raise (e : exn).
Arguments Return {A} a.
Arguments Raise {A} e.

(** [isinstance(e, Exception)] *)
Definition is_Exception (e : exn) : bool :=
  match e with
  | PyBaseException _ _ => false
  | _ => true
  end.

(** [isinstance(e, ClientError)] *)
Definition is_ClientError (e : exn) : bool :=
  match e with
  | ClientError _ => true
  | _ => false
  end.

(** [isinstance(e, git.exc.GitCommandError)] *)
Definition is_GitCommandError (e : exn) : bool :=
  match e with
  | GitCommandError _ => true
  | _ => false
  end.

(** [isinstance(e, RepositoryCloneError)] *)
Definition is_RepositoryCloneError (e : exn) : bool :=
  match e with
  | RepositoryCloneError _ _ => true
  | _ => false
  end.

(** [isinstance(e, FileServiceError)] *)
Definition is_FileServiceError (e : exn) : bool :=
  match e with
  | FileServiceError _ _ => true
  | _ => false
  end.

(** [str(e)] *)
Definition str_exn (e : exn) : string :=
  match e with
  | ClientError m | GitCommandError m => m
  | PyException _ m | PyBaseException _ m => m
  | RepositoryCloneError m _ | FileServiceError m _ => m
  | HTTPException _ d _ => d
  end.

(** Truthiness of an [Optional[str]]: [None] and [""] are falsy. *)
Definition truthy (o : option string) : bool :=
  match o with
  | Some s => negb (String.eqb s "")
  | None => false
  end.

(** ** Effects: a trace of library calls and an outcome *)

Module Eff.
Definition t (E A : Type) : Type := (list E * outcome A)%type.

Definition ret {E A} (a : A) : t E A := ([], Return a).
Definition raise {E A} (e : exn) : t E A := ([], Raise e).

Definition bind {E A B} (m : t E A) (k : A -> t E B) : t E B :=
  match m with
  | (tr, Return a) => let '(tr', r) := k a in (tr ++ tr', r)
  | (tr, Raise e) => (tr, Raise e)
  end.

(** A call into a library: recorded, with the library's answer. *)
Definition call {E A} (ev : E) (answer : outcome A) : t E A := ([ev], answer).

(** [try: m except ...: h e]; the handler decides by itself which
    exceptions it takes (it re-raises the others). *)
Definition try_except {E A} (m : t E A) (h : exn -> t E A) : t E A :=
  match m with
  | (tr, Return a) => (tr, Return a)
  | (tr, Raise e) => let '(tr', r) := h e in (tr ++ tr', r)
  end.

(** [try: x = m except ...: h e] followed by [k x]: the handler covers
    [m] only, not what follows it. *)
Definition try_then {E A B} (m : t E A) (h : exn -> t E B) (k : A -> t E B)
  : t E B :=
  match m with
  | (tr, Return a) => let '(tr', r) := k a in (tr ++ tr', r)
  | (tr, Raise e) => let '(tr', r) := h e in (tr ++ tr', r)
  end.

Definition trace {E A} (m : t E A) : list E := fst m.
Definition result {E A} (m : t E A) : outcome A := snd m.
End Eff.

Notation "'let!' x := m 'in' k" := (Eff.bind m (fun x => k))
  (at level 10, x name, m at level 100, k at level 200).

(** ** urllib.parse *)

Record ParseResult : Type := mkParseResult {
  scheme : string;
  netloc : string;
  path : string;
  params : string;
  query : string;
  fragment : string
}.

(** [parsed._replace(scheme=s, netloc=n)] *)
Definition _replace_scheme_netloc (p : ParseResult) (s n : string) : ParseResult :=
  {| scheme := s; netloc := n; path := path p; params := params p;
     query := query p; fragment := fragment p |}.

(** What the program uses of [urllib.parse]. [urlparse] may raise, and what
    it raises derives from [Exception] ([ValueError] for a malformed
    authority); [urlunparse] joins six strings and does not raise. *)
Class UrlLib : Type := {
  urlparse : string -> outcome ParseResult;
  urlunparse : ParseResult -> string;
  urlparse_raises_Exception :
    forall u e, urlparse u = Raise e -> is_Exception e = true
}.

(** ** A model of CPython's urllib.parse

    [urlparse] and [urlunparse] as CPython 3.11 implements them
    (Lib/urllib/parse.py: [urlsplit], [_splitnetloc], [_splitparams],
    [urlunsplit]), on byte strings. The two validations of the authority
    that rest on tables outside this file are taken as given: the address
    between brackets ([_check_bracketed_host], through [ipaddress]) and the
    NFKC check of a non-ASCII authority ([_checknetloc], through
    [unicodedata]). Each answers with the message of the [ValueError] it
    raises, or [None]. *)

Class HostChecks : Type := {
  _check_bracketed_host : string -> option string;
  _checknetloc : string -> option string
}.

Module urllib_parse.

Definition is_alpha (c : ascii) : bool :=
  let n := nat_of_ascii c in
  (((65 <=? n) && (n <=? 90)) || ((97 <=? n) && (n <=? 122)))%nat.

Definition is_digit (c : ascii) : bool :=
  let n := nat_of_ascii c in ((48 <=? n) && (n <=? 57))%nat.

(** [scheme_chars]: letters, digits and [+-.] *)
Definition is_scheme_char (c : ascii) : bool :=
  is_alpha c || is_digit c
  || Ascii.eqb c "+" || Ascii.eqb c "-" || Ascii.eqb c ".".

Definition lower_char (c : ascii) : ascii :=
  let n := nat_of_ascii c in
  if ((65 <=? n) && (n <=? 90))%nat then ascii_of_nat (n + 32) else c.

Fixpoint lower (s : string) : string :=
  match s with
  | EmptyString => EmptyString
  | String c s' => String (lower_char c) (lower s')
  end.

Fixpoint forallb_str (f : ascii -> bool) (s : string) : bool :=
  match s with
  | EmptyString => true
  | String c s' => f c && forallb_str f s'
  end.

Fixpoint filter_str (f : ascii -> bool) (s : string) : string :=
  match s with
  | EmptyString => EmptyString
  | String c s' => if f c then String c (filter_str f s') else filter_str f s'
  end.

(** [c in s] *)
Fixpoint contains (c : ascii) (s : string) : bool :=
  match s with
  | EmptyString => false
  | String a s' => Ascii.eqb a c || contains c s'
  end.

(** [s.split(c, 1)] when [c in s]: the text before and after the first
    occurrence of [c]. *)
Fixpoint partition (c : ascii) (s : string) : option (string * string) :=
  match s with
  | EmptyString => None
  | String a s' =>
      if Ascii.eqb a c then Some (EmptyString, s')
      else match partition c s' with
           | Some (l, r) => Some (String a l, r)
           | None => None
           end
  end.

(** The text before and after the last occurrence of [c]. *)
Fixpoint rpartition (c : ascii) (s : string) : option (string * string) :=
  match s with
  | EmptyString => None
  | String a s' =>
      match rpartition c s' with
      | Some (l, r) => Some (String a l, r)
      | None => if Ascii.eqb a c then Some (EmptyString, s') else None
      end
  end.

(** [url.lstrip(_WHATWG_C0_CONTROL_OR_SPACE)]: the characters 0x00-0x20 *)
Fixpoint lstrip_c0 (s : string) : string :=
  match s with
  | EmptyString => EmptyString
  | String c s' => if (nat_of_ascii c <=? 32)%nat then lstrip_c0 s' else s
  end.

(** [_UNSAFE_URL_BYTES_TO_REMOVE]: tab, carriage return, newline *)
Definition is_unsafe (c : ascii) : bool :=
  let n := nat_of_ascii c in ((n =? 9) || (n =? 10) || (n =? 13))%nat.

Definition remove_unsafe (s : string) : string :=
  filter_str (fun c => negb (is_unsafe c)) s.

Definition uses_netloc : list string :=
  [""; "ftp"; "http"; "gopher"; "nntp"; "telnet"; "imap"; "wais"; "file";
   "mms"; "https"; "shttp"; "snews"; "prospero"; "rtsp"; "rtspu"; "rsync";
   "svn"; "svn+ssh"; "sftp"; "nfs"; "git"; "git+ssh"; "ws"; "wss"].

Definition uses_params : list string :=
  [""; "ftp"; "hdl"; "prospero"; "http"; "imap"; "https"; "shttp"; "rtsp";
   "rtspu"; "sip"; "sips"; "mms"; "sftp"; "tel"].

Definition in_list (s : string) (l : list string) : bool :=
  existsb (String.eqb s) l.

(** The scheme test of [urlsplit]: a [:] not at position 0, after a
    first letter and scheme characters only. *)
Definition split_scheme (url : string) : string * string :=
  match partition ":" url with
  | Some (String c0 rest, after) =>
      if is_alpha c0 && forallb_str is_scheme_char (String c0 rest)
      then (lower (String c0 rest), after)
      else (EmptyString, url)
  | _ => (EmptyString, url)
  end.

(** [_splitnetloc(url, 2)] on the text that follows [//]: the authority
    ends at the first of [/ ? #]. *)
Fixpoint _splitnetloc (s : string) : string * string :=
  match s with
  | EmptyString => (EmptyString, EmptyString)
  | String c s' =>
      if Ascii.eqb c "/" || Ascii.eqb c "?" || Ascii.eqb c "#"
      then (EmptyString, s)
      else let '(n, r) := _splitnetloc s' in (String c n, r)
  end.

(** [url[2:]] when [url[:2] == '//'] *)
Definition after_2slash (s : string) : option string :=
  match s with
  | String a (String b rest) =>
      if Ascii.eqb a "/" && Ascii.eqb b "/" then Some rest else None
  | _ => None
  end.

Definition split_at (c : ascii) (s : string) : string * string :=
  match partition c s with
  | Some (l, r) => (l, r)
  | None => (s, EmptyString)
  end.

Record SplitResult : Type := mkSplitResult {
  s_scheme : string; s_netloc : string; s_path : string;
  s_query : string; s_fragment : string
}.

(** [netloc.partition('[')[2].partition(']')[0]] *)
Definition bracketed_host (nl : string) : string :=
  fst (split_at "]" (snd (split_at "[" nl))).

(** The [ValueError] an authority is refused with, if any: a bracket
    without its pair, a bad address between brackets, a refused non-ASCII
    authority. *)
Definition netloc_error `{HostChecks} (nl : string) : option string :=
  if (contains "[" nl && negb (contains "]" nl))
     || (contains "]" nl && negb (contains "[" nl))
  then Some "Invalid IPv6 URL"
  else
    match (if contains "[" nl && contains "]" nl
           then _check_bracketed_host (bracketed_host nl) else None) with
    | Some m => Some m
    | None => _checknetloc nl
    end.

Definition urlsplit `{HostChecks} (url0 : string) : outcome SplitResult :=
  let url := remove_unsafe (lstrip_c0 url0) in
  let '(sch, url) := split_scheme url in
  let '(nl, url) :=
    match after_2slash url with
    | Some rest => _splitnetloc rest
    | None => (EmptyString, url)
    end in
  match netloc_error nl with
  | Some m => Raise (PyException "ValueError" m)
  | None =>
      let '(url, frag) := split_at "#" url in
      let '(url, qry) := split_at "?" url in
      Return {| s_scheme := sch; s_netloc := nl; s_path := url;
                s_query := qry; s_fragment := frag |}
  end.

(** [_splitparams]: the parameters follow the first [;] of the last
    path segment. *)
Definition _splitparams (url : string) : string * string :=
  match rpartition "/" url with
  | Some (head, tail) =>
      match partition ";" tail with
      | Some (l, r) => (head +:+ "/" +:+ l, r)
      | None => (url, EmptyString)
      end
  | None => split_at ";" url
  end.

Definition urlparse `{HostChecks} (url : string) : outcome ParseResult :=
  match urlsplit url with
  | Raise e => Raise e
  | Return sr =>
      let '(url, prm) :=
        if in_list (s_scheme sr) uses_params && contains ";" (s_path sr)
        then _splitparams (s_path sr)
        else (s_path sr, EmptyString) in
      Return {| scheme := s_scheme sr; netloc := s_netloc sr; path := url;
                params := prm; query := s_query sr;
                fragment := s_fragment sr |}
  end.

(** [url[:1] == '/'] *)
Definition starts_with_slash (s : string) : bool :=
  match s with String c _ => Ascii.eqb c "/" | EmptyString => false end.

(** [url[:2] == '//'] *)
Definition starts_with_2slash (s : string) : bool :=
  match after_2slash s with Some _ => true | None => false end.

Definition nonempty (s : string) : bool := negb (String.eqb s "").

Definition urlunsplit (sch nl url qry frag : string) : string :=
  let url :=
    if nonempty nl
       || (nonempty sch && in_list sch uses_netloc
           && negb (starts_with_2slash url))
    then
      let url := if nonempty url && negb (starts_with_slash url)
                 then "/" +:+ url else url in
      "//" +:+ nl +:+ url
    else url in
  let url := if nonempty sch then sch +:+ ":" +:+ url else url in
  let url := if nonempty qry then url +:+ "?" +:+ qry else url in
  let url := if nonempty frag then url +:+ "#" +:+ frag else url in
  url.

Definition urlunparse (p : ParseResult) : string :=
  let url := if nonempty (params p) then path p +:+ ";" +:+ params p
             else path p in
  urlunsplit (scheme p) (netloc p) url (query p) (fragment p).

End urllib_parse.

(** ** core/settings.py: the settings the storage service reads *)

Record Settings : Type := mkSettings {
  s3_endpoint_url : string;
  s3_bucket : string;
  s3_access_key : string;
  s3_secret_key : string;
  s3_external_url : string;
  s3_region : string;
  s3_upload_expiration : Z;
  s3_use_ssl : option bool
}.

(** ** boto3: the S3 client *)

(** The keyword arguments [client_params] of [boto3.client]. *)
Record client_params : Type := mkClientParams {
  service_name : string;
  region_name : string;
  endpoint_url : string;
  use_ssl : option bool;
  aws_access_key_id : string;
  aws_secret_access_key : string
}.

(** A client object: its identity and the arguments it was created with. *)
Record s3_client : Type := mkClient {
  client_id : nat;
  client_args : client_params
}.

(** The keyword arguments of [generate_presigned_post]. A condition such as
    [["starts-with", "$Content-Type", v]] is a list of strings. *)
Record post_request : Type := mkPostRequest {
  Bucket : string;
  Key : string;
  Fields : option (gmap string string);
  Conditions : option (list (list string));
  ExpiresIn : Z
}.

(** The dict [generate_presigned_post] returns: [url] and [fields]. *)
Record presigned_post : Type := mkPresignedPost {
  pp_url : string;
  pp_fields : gmap string string
}.

(** Object metadata as the backend reports it (Key, Size, LastModified,
    ...): passed through, never inspected. *)
Inductive meta : Type := MStr (s : string) | MInt (z : Z).

(** A value of the response dict of [list_objects]. *)
Inductive resp_val : Type :=
| VList (l : list (gmap string meta))
| VStr (s : string)
| VInt (z : Z)
| VBool (b : bool)
| VNone.

(** The calls the service makes on its client. *)
Inductive s3_call : Type :=
| call_generate_presigned_post (c : s3_client) (req : post_request)
| call_generate_presigned_url (c : s3_client) (ClientMethod : string)
    (Params : gmap string string) (ExpiresIn : Z)
| call_list_objects (c : s3_client) (Bucket : string).

(** What a client answers: the storage backend behind boto3. *)
Class S3Backend : Type := {
  generate_presigned_post : s3_client -> post_request -> outcome presigned_post;
  generate_presigned_url :
    s3_client -> string -> gmap string string -> Z -> outcome string;
  list_objects : s3_client -> string -> outcome (gmap string resp_val)
}.

(** ** services/file_service.py *)

Module file_service.

Section ReplaceUrlEndpoint.
Context {urllib : UrlLib}.

(** The body of the [try] block. *)
Definition replace_url_endpoint_try (url external_url : string) : outcome string :=
  match urlparse url with
  | Raise e => Raise e
  | Return parsed =>
      match urlparse external_url with
      | Raise e => Raise e
      | Return external_parsed =>
          let new_parsed :=
            _replace_scheme_netloc parsed (scheme external_parsed)
                                   (netloc external_parsed) in
          Return (urlunparse new_parsed)
      end
  end.

Definition replace_url_endpoint (url : string) (external_url : option string)
  : outcome string :=
  if negb (truthy external_url) then Return url
  else
    match replace_url_endpoint_try url (default "" external_url) with
    | Return r => Return r
    | Raise e => if is_Exception e then Return url else Raise e
    end.
End ReplaceUrlEndpoint.


Record FileService : Type := mkFileService {
  bucket_name : string;
  upload_expiration : Z;
  external_url : option string;
  _client : s3_client
}.

(** The dict [get_upload_link] returns. *)
Record upload_link_result : Type := mkUploadLink {
  upload_link : string;
  fields : gmap string string;
  ul_filename : string;
  ul_expires_in : Z
}.

(** The dict [get_file] returns. *)
Record download_link_result : Type := mkDownloadLink {
  download_link : string;
  dl_filename : string;
  dl_expires_in : Z
}.

(** [len(v)], which raises [TypeError] on a value that has no length. *)
Definition py_len (v : resp_val) : outcome Z :=
  match v with
  | VList l => Return (Z.of_nat (length l))
  | VStr s => Return (Z.of_nat (String.length s))
  | _ => Raise (PyException "TypeError" "object has no len()")
  end.

Section FileServiceOps.
Context {urllib : UrlLib} {backend : S3Backend}.

Definition M := Eff.t s3_call.

(** Lift a call that makes no backend call. *)
Definition pure {A} (o : outcome A) : M A := ([], o).

(** The keyword arguments [get_upload_link] passes to
    [generate_presigned_post]. *)
Definition presigned_post_args (self : FileService) (filename : string)
    (content_type : option string) : post_request :=
  let conditions : list (list string) :=
    if truthy content_type
    then [] ++ [["starts-with"; "$Content-Type"; default "" content_type]]
    else [] in
  {| Bucket := bucket_name self;
     Key := filename;
     Fields := if truthy content_type
               then Some {["Content-Type" := default "" content_type]}
               else None;
     Conditions := match conditions with [] => None | _ => Some conditions end;
     ExpiresIn := upload_expiration self |}.

(** The [try] block of [get_upload_link]. *)
Definition get_upload_link_try (self : FileService) (filename : string)
    (content_type : option string) : M upload_link_result :=
  let req := presigned_post_args self filename content_type in
  let! presigned_post :=
    Eff.call (call_generate_presigned_post (_client self) req)
             (generate_presigned_post (_client self) req) in
  let! upload_url :=
    pure (replace_url_endpoint (pp_url presigned_post) (external_url self)) in
  Eff.ret {| upload_link := upload_url;
             fields := pp_fields presigned_post;
             ul_filename := filename;
             ul_expires_in := upload_expiration self |}.

(** The two [except] clauses every operation has: [ClientError] first,
    then [Exception]; anything else propagates. *)
Definition wrap_errors {A} (client_error_prefix : string) (e : exn) : M A :=
  if is_ClientError e
  then Eff.raise (FileServiceError (client_error_prefix +:+ str_exn e) e)
  else if is_Exception e
  then Eff.raise (FileServiceError ("Unexpected error: " +:+ str_exn e) e)
  else Eff.raise e.

Definition get_upload_link (self : FileService) (filename : string)
    (content_type : option string) : M upload_link_result :=
  Eff.try_except (get_upload_link_try self filename content_type)
                 (wrap_errors "Failed to generate upload URL: ").

(** [Params={"Bucket": self.bucket_name, "Key": filename}] *)
Definition get_object_params (self : FileService) (filename : string)
  : gmap string string :=
  {["Bucket" := bucket_name self; "Key" := filename]}.

(** The [try] block of [get_file]. *)
Definition get_file_try (self : FileService) (filename : string)
  : M download_link_result :=
  let prm := get_object_params self filename in
  let! presigned_url :=
    Eff.call (call_generate_presigned_url (_client self) "get_object" prm
                (upload_expiration self))
             (generate_presigned_url (_client self) "get_object" prm
                (upload_expiration self)) in
  let! download_url :=
    pure (replace_url_endpoint presigned_url (external_url self)) in
  Eff.ret {| download_link := download_url;
             dl_filename := filename;
             dl_expires_in := upload_expiration self |}.

Definition get_file (self : FileService) (filename : string)
  : M download_link_result :=
  Eff.try_except (get_file_try self filename)
                 (wrap_errors "Failed to generate download URL: ").

(** The [try] block of [get_file_list]. *)
Definition get_file_list_try (self : FileService) : M resp_val :=
  let! response :=
    Eff.call (call_list_objects (_client self) (bucket_name self))
             (list_objects (_client self) (bucket_name self)) in
  let files := default (VList []) (response !! "Contents") in
  let! _n := pure (py_len files) in
  Eff.ret files.

Definition get_file_list (self : FileService) : M resp_val :=
  Eff.try_except (get_file_list_try self)
                 (wrap_errors "Failed to list files: ").
End FileServiceOps.

(** The objects the process has created so far. An object's identity is
    its position: the n-th client created has [client_id] n, the n-th
    [FileService] constructed is at index n of [services]. *)
Record process : Type := mkProcess {
  clients : list s3_client;
  services : list FileService
}.

Definition fresh_process : process := {| clients := []; services := [] |}.

(** [boto3.client(...)]: a new client object. *)
Definition boto3_client (args : client_params) (p : process) : s3_client * process :=
  let c := {| client_id := length (clients p); client_args := args |} in
  (c, {| clients := clients p ++ [c]; services := services p |}).

(** [FileService.__init__]: reads the settings, creates one client. *)
Definition __init__ (settings : Settings) (p : process) : FileService * process :=
  let bucket := s3_bucket settings in
  let expiration := s3_upload_expiration settings in
  let ext := if truthy (Some (s3_external_url settings))
             then Some (s3_external_url settings) else None in
  let args :=
    {| service_name := "s3";
       region_name := s3_region settings;
       endpoint_url := s3_endpoint_url settings;
       use_ssl := s3_use_ssl settings;
       aws_access_key_id := s3_access_key settings;
       aws_secret_access_key := s3_secret_key settings |} in
  let '(c, p1) := boto3_client args p in
  let self := {| bucket_name := bucket; upload_expiration := expiration;
                 external_url := ext; _client := c |} in
  (self, {| clients := clients p1; services := services p1 ++ [self] |}).

End file_service.

(** ** api/importer.py *)

Module importer.

Import file_service.

(** [get_file_service]: the dependency of every endpoint. *)
Definition get_file_service (settings : Settings) (p : process)
  : FileService * process :=
  __init__ settings p.

Definition HTTP_500_INTERNAL_SERVER_ERROR : Z := 500.

Section Endpoints.
Context {urllib : UrlLib} {backend : S3Backend}.

(** The two [except] clauses every endpoint has: [FileServiceError] first,
    then [Exception]; anything else propagates. *)
Definition to_http_exception {A} (fallback_detail : string) (e : exn) : M A :=
  if is_FileServiceError e
  then Eff.raise (HTTPException HTTP_500_INTERNAL_SERVER_ERROR (str_exn e) e)
  else if is_Exception e
  then Eff.raise (HTTPException HTTP_500_INTERNAL_SERVER_ERROR fallback_detail e)
  else Eff.raise e.

Definition get_upload_link (filename : string) (content_type : option string)
    (service : FileService) : M upload_link_result :=
  Eff.try_except (file_service.get_upload_link service filename content_type)
                 (to_http_exception "Failed to generate upload link").

Definition get_file (filename : string) (service : FileService)
  : M download_link_result :=
  Eff.try_except (file_service.get_file service filename)
                 (to_http_exception "Failed to generate download link").

Definition get_file_list (service : FileService) : M resp_val :=
  Eff.try_except (file_service.get_file_list service)
                 (to_http_exception "Failed to generate file list").

End Endpoints.

End importer.

(** ** main.py, routes.py: the HTTP surface

    The three routes of the importer router under [/importer], and the
    part of FastAPI that turns what an endpoint returns or raises into a
    response: a returned value is the JSON body of a 200, an
    [HTTPException] becomes its status code with the body
    [{detail: ...}]. *)

Module app.

Import file_service.

(** A request as an endpoint function receives it: FastAPI has matched the
    route and bound the query parameters, so the required [filename] is
    there. A request without it is answered by FastAPI and reaches no
    function of this module. *)
Inductive request : Type :=
| GET_importer_file_upload (filename : string) (content_type : option string)
| GET_importer_file (filename : string)
| GET_importer_file_list.

Inductive json_body : Type :=
| body_upload (r : upload_link_result)
| body_download (r : download_link_result)
| body_list (v : resp_val)
| body_object (o : gmap string string).

Record http_response : Type := mkResponse {
  status : Z;
  body : json_body
}.

(** FastAPI's handling of an endpoint's outcome. An exception that is not
    an [HTTPException] is not turned into a response here. *)
Definition respond {A} (to_body : A -> json_body) (o : outcome A)
  : outcome http_response :=
  match o with
  | Return a => Return {| status := 200; body := to_body a |}
  | Raise (HTTPException code detail _) =>
      Return {| status := code; body := body_object {["detail" := detail]} |}
  | Raise e => Raise e
  end.

(** One request served: the wrapper the dependency gave, the backend
    calls made, and the response. The dependency is resolved first, with
    [get_file_service]; the construction of the wrapper is taken to
    succeed. *)
Record served : Type := mkServed {
  wrapper : FileService;
  backend_calls : list s3_call;
  response : outcome http_response
}.

Section Serve.
Context {urllib : UrlLib} {backend : S3Backend}.

Definition serve (settings : Settings) (p : process) (req : request)
  : served * process :=
  let '(service, p1) := importer.get_file_service settings p in
  let '(tr, resp) :=
    match req with
    | GET_importer_file_upload filename content_type =>
        let '(tr, o) := importer.get_upload_link filename content_type service in
        (tr, respond body_upload o)
    | GET_importer_file filename =>
        let '(tr, o) := importer.get_file filename service in
        (tr, respond body_download o)
    | GET_importer_file_list =>
        let '(tr, o) := importer.get_file_list service in
        (tr, respond body_list o)
    end in
  ({| wrapper := service; backend_calls := tr; response := resp |}, p1).

(** Requests served one after the other. *)
Fixpoint serve_all (settings : Settings) (p : process) (reqs : list request)
  : list served * process :=
  match reqs with
  | [] => ([], p)
  | req :: rest =>
      let '(s, p1) := serve settings p req in
      let '(ss, p2) := serve_all settings p1 rest in
      (s :: ss, p2)
  end.

End Serve.

End app.

(** ** services/git.py *)

Module git.

(** A [git.Repo] object: the clone it stands for. *)
Record Repo : Type := mkRepo {
  repo_origin : string;
  repo_dir : string
}.

(** A [git.PushInfo]: its flag bits. *)
Record PushInfo : Type := mkPushInfo { flags : Z }.

(** [git.PushInfo.ERROR], bit 10 of the flags. *)
Definition PushInfo_ERROR : Z := 1024.

(** The calls into GitPython and shutil. *)
Inductive git_call : Type :=
| call_clone_from (repo_url clone_dir : string)
| call_index_add (repo : Repo) (files : list string)
| call_index_commit (repo : Repo) (message : string)
| call_push (repo : Repo) (refspec : string)
| call_rmtree (dir : string).

(** What GitPython and the file system answer. *)
Class GitEnv : Type := {
  clone_from : string -> string -> outcome Repo;
  index_add : Repo -> list string -> outcome unit;
  index_commit : Repo -> string -> outcome unit;
  push : Repo -> string -> outcome (list PushInfo);
  rmtree : string -> outcome unit
}.

(** [s.split("/")] *)
Fixpoint split_slash (s : string) : list string :=
  match s with
  | EmptyString => [EmptyString]
  | String c s' =>
      if Ascii.eqb c "/" then EmptyString :: split_slash s'
      else match split_slash s' with
           | [] => [String c EmptyString]
           | w :: ws => String c w :: ws
           end
  end.

(** [Path(p).name] on a POSIX path: the last component, after empty and
    [.] components are dropped; empty when there is none. *)
Definition path_name (p : string) : string :=
  let parts :=
    List.filter (fun w => negb (String.eqb w "") && negb (String.eqb w "."))
                (split_slash p) in
  List.last parts "".

Section Workflow.
Context {env : GitEnv}.

Definition G := Eff.t git_call.

Definition clone_repo (repo_url clone_dir : string) : G Repo :=
  Eff.try_except
    (Eff.call (call_clone_from repo_url clone_dir) (clone_from repo_url clone_dir))
    (fun e =>
       if is_GitCommandError e
       then Eff.raise (RepositoryCloneError
                         ("Failed to clone repository from " +:+ repo_url) e)
       else Eff.raise e).

(** [push_info and push_info[0].flags & git.PushInfo.ERROR] *)
Definition push_failed (push_info : list PushInfo) : bool :=
  match push_info with
  | [] => false
  | i :: _ => negb (Z.land (flags i) PushInfo_ERROR =? 0)
  end.

Definition commit_repo (repo : option Repo) (file_to_add commit_message : string)
  : G string :=
  match repo with
  | None => Eff.ret "Commit Failed: Repository not cloned."
  | Some repo =>
      Eff.try_except
        (let! _a := Eff.call (call_index_add repo [file_to_add])
                             (index_add repo [file_to_add]) in
         let! _c := Eff.call (call_index_commit repo commit_message)
                             (index_commit repo commit_message) in
         let! push_info := Eff.call (call_push repo "HEAD:main")
                                    (push repo "HEAD:main") in
         if push_failed push_info
         then Eff.ret "Commit Failed during push!"
         else Eff.ret "Commit Successful! Data Imported Successfully!")
        (fun e =>
           if is_Exception e
           then Eff.ret ("An error occurred during commit/push: " +:+ str_exn e)
           else Eff.raise e)
  end.

Definition run_workflow (repo_url csv_file_path clone_dir : string) : G string :=
  Eff.try_then (clone_repo repo_url clone_dir)
    (fun e =>
       if is_RepositoryCloneError e
       then Eff.ret "Workflow Failed at: Repository Cloning."
       else Eff.raise e)
    (fun local_repo =>
       let json_filename := path_name csv_file_path in
       let! result_message :=
         commit_repo (Some local_repo) json_filename ("Add " +:+ json_filename) in
       let! _r :=
         Eff.try_except (Eff.call (call_rmtree clone_dir) (rmtree clone_dir))
           (fun e => if is_Exception e then Eff.ret tt else Eff.raise e) in
       Eff.ret result_message).

End Workflow.

End git.

(** ** core/settings.py: the field validators

    The validators get the raw text of an environment variable, in which
    any Unicode character can occur, and [str.strip] removes every Unicode
    white space: here a text is its sequence of code points. The case
    mapping of [str.upper] rests on the Unicode tables; it is taken as
    given, with what it does to ASCII text. A validator raises nothing but
    [ValueError]: its outcome is the value it stores, or the message of
    the [ValueError]. *)

Module validators.

Definition text : Type := list N.

(** The text of a literal of the source. *)
Fixpoint literal (s : string) : text :=
  match s with
  | EmptyString => []
  | String c s' => N_of_ascii c :: literal s'
  end.

(** [c.isspace()]: the white space of Unicode. *)
Definition is_space (c : N) : bool :=
  (((9 <=? c) && (c <=? 13)) || ((28 <=? c) && (c <=? 32))
   || (c =? 133) || (c =? 160) || (c =? 5760)
   || ((8192 <=? c) && (c <=? 8202))
   || (c =? 8232) || (c =? 8233) || (c =? 8239) || (c =? 8287)
   || (c =? 12288))%N.

Fixpoint lstrip (s : text) : text :=
  match s with
  | [] => []
  | c :: s' => if is_space c then lstrip s' else s
  end.

Fixpoint rstrip (s : text) : text :=
  match s with
  | [] => []
  | c :: s' =>
      match rstrip s' with
      | [] => if is_space c then [] else [c]
      | r => c :: r
      end
  end.

(** [s.strip()] *)
Definition strip (s : text) : text := rstrip (lstrip s).

(** [s.split(c)] *)
Fixpoint split_on (c : N) (s : text) : list text :=
  match s with
  | [] => [[]]
  | a :: s' =>
      if (a =? c)%N then [] :: split_on c s'
      else match split_on c s' with
           | [] => [[a]]
           | w :: ws => (a :: w) :: ws
           end
  end.

(** [s.startswith(p)] *)
Fixpoint starts_with (p s : text) : bool :=
  match p with
  | [] => true
  | a :: p' =>
      match s with
      | [] => false
      | b :: s' => (a =? b)%N && starts_with p' s'
      end
  end.

Fixpoint text_eqb (s t : text) : bool :=
  match s, t with
  | [], [] => true
  | a :: s', b :: t' => (a =? b)%N && text_eqb s' t'
  | _, _ => false
  end.

(** Truthiness of a [str]. *)
Definition nonempty (s : text) : bool :=
  match s with
  | [] => false
  | _ :: _ => true
  end.

(** [URL_REGEX.match(v)] for [^https?://]. *)
Definition URL_REGEX_match (v : text) : bool :=
  starts_with (literal "http://") v || starts_with (literal "https://") v.

Inductive checked (A : Type) : Type :=
| Accepted (a : A)
| ValueError (msg : text).
Arguments Accepted {A} a.
Arguments ValueError {A} msg.

(** ASCII text, and what [upper] does to it: the letters a-z. *)
Definition is_ascii (s : string) : bool :=
  urllib_parse.forallb_str (fun c => (nat_of_ascii c <? 128)%nat) s.

Definition ascii_upper_char (c : ascii) : ascii :=
  let n := nat_of_ascii c in
  if ((97 <=? n) && (n <=? 122))%nat then ascii_of_nat (n - 32) else c.

Fixpoint ascii_upper (s : string) : string :=
  match s with
  | EmptyString => EmptyString
  | String c s' => String (ascii_upper_char c) (ascii_upper s')
  end.

(** [str.upper]: any function on texts that upper-cases ASCII text letter
    by letter. *)
Class UnicodeCase : Type := {
  upper : text -> text;
  upper_ascii :
    forall s, is_ascii s = true -> upper (literal s) = literal (ascii_upper s)
}.

Definition VALID_LOG_LEVELS : list text :=
  List.map literal ["DEBUG"; "INFO"; "WARNING"; "ERROR"; "CRITICAL"].

(** [', '.join(sorted(VALID_LOG_LEVELS))] *)
Definition sorted_log_levels : text :=
  literal "CRITICAL, DEBUG, ERROR, INFO, WARNING".

Definition validate_log_level `{UnicodeCase} (v : text) : checked text :=
  let upper_v := upper v in
  if negb (existsb (text_eqb upper_v) VALID_LOG_LEVELS)
  then ValueError (literal "Invalid log_level: " ++ v
                   ++ literal ". Must be one of: " ++ sorted_log_levels)
  else Accepted upper_v.

Definition validate_endpoint_url (v : text) : checked text :=
  if negb (nonempty v) || negb (nonempty (strip v))
  then ValueError (literal "S3_ENDPOINT_URL must be configured")
  else if negb (URL_REGEX_match v)
  then ValueError (literal "Invalid S3_ENDPOINT_URL: " ++ v
                   ++ literal ". Must be a valid http(s) URL.")
  else Accepted (strip v).

(** The body the three validators of a required name share:
    [res = (v or "").strip()], refused when empty. *)
Definition validate_required (message : string) (v : text) : checked text :=
  let res := strip (if nonempty v then v else []) in
  if negb (nonempty res) then ValueError (literal message) else Accepted res.

Definition validate_bucket : text -> checked text :=
  validate_required "S3_BUCKET must be configured".

Definition validate_access_key : text -> checked text :=
  validate_required "S3_ACCESS_KEY/MINIO_ROOT_USER must be configured".

Definition validate_secret_key : text -> checked text :=
  validate_required "S3_SECRET_KEY/MINIO_ROOT_PASSWORD must be configured".

(** The loop of [cors_allow_urls_list]: every origin must match, the
    first that does not raises. *)
Fixpoint check_origins (urls valid_urls : list text) : checked (list text) :=
  match urls with
  | [] => Accepted valid_urls
  | url :: rest =>
      if URL_REGEX_match url
      then check_origins rest (valid_urls ++ [url])
      else ValueError (literal "Invalid CORS origin: " ++ url
                       ++ literal ". Must be a valid http(s) URL.")
  end.

Definition cors_allow_urls_list (cors_allow_urls : text) : checked (list text) :=
  let v := cors_allow_urls in
  if negb (nonempty (strip v))
  then ValueError
         (literal "CORS_ALLOW_URLS must be a non-empty comma-separated string of URLs.")
  else
    let urls := List.map strip
                  (List.filter (fun url => nonempty (strip url))
                               (split_on (N_of_ascii ",") v)) in
    match urls with
    | [] => ValueError (literal "CORS_ALLOW_URLS must contain at least one valid URL.")
    | _ =>
        match check_origins urls [] with
        | ValueError msg => ValueError msg
        | Accepted [] =>
            ValueError (literal "CORS_ALLOW_URLS must contain at least one valid URL.")
        | Accepted valid_urls => Accepted valid_urls
        end
    end.

End validators.

(** ** core/settings.py: the settings after their fields

    The TLS inference and the environment flags, on the settings whose
    fields have been validated. *)

Module core_settings.

(** Truthiness of a [str]. *)
Definition nonempty (s : string) : bool := negb (String.eqb s "").

(** [URL_REGEX.match(v)] for [^https?://]. *)
Definition URL_REGEX_match (v : string) : bool :=
  String.prefix "http://" v || String.prefix "https://" v.

(** The model validator that runs after the fields: an unset TLS flag is
    read off the endpoint's scheme. *)
Definition infer_ssl_from_endpoint {urllib : UrlLib} (self : Settings)
  : outcome Settings :=
  let with_ssl (b : bool) :=
    {| s3_endpoint_url := s3_endpoint_url self;
       s3_bucket := s3_bucket self;
       s3_access_key := s3_access_key self;
       s3_secret_key := s3_secret_key self;
       s3_external_url := s3_external_url self;
       s3_region := s3_region self;
       s3_upload_expiration := s3_upload_expiration self;
       s3_use_ssl := Some b |} in
  match s3_use_ssl self with
  | None =>
      if nonempty (s3_endpoint_url self)
      then match urlparse (s3_endpoint_url self) with
           | Return parsed => Return (with_ssl (String.eqb (scheme parsed) "https"))
           | Raise e => Raise e
           end
      else Return (with_ssl false)
  | Some _ => Return self
  end.

(** [self.app_env.lower() in ["development", "dev"]] *)
Definition is_development (app_env : string) : bool :=
  existsb (String.eqb (urllib_parse.lower app_env)) ["development"; "dev"].

(** [self.app_env.lower() in ["production", "prod"]] *)
Definition is_production (app_env : string) : bool :=
  existsb (String.eqb (urllib_parse.lower app_env)) ["production"; "prod"].

End core_settings.

(** ** Sample configurations and library behaviours

    Concrete settings, backends and git environments on which the
    definitions above run. *)

Module samples.

Import file_service.

(** Checks that refuse nothing: every bracketed host and every non-ASCII
    authority passes. *)
#[global] Instance lenient_checks : HostChecks :=
  {| _check_bracketed_host _ := None; _checknetloc _ := None |}.

Definition settings : Settings :=
  {| s3_endpoint_url := "http://internal-host:9000";
     s3_bucket := "test-bucket";
     s3_access_key := "minio";
     s3_secret_key := "minio-secret";
     s3_external_url := "http://localhost:9001";
     s3_region := "us-east-1";
     s3_upload_expiration := 60;
     s3_use_ssl := Some false |}.

Definition settings_no_external : Settings :=
  {| s3_endpoint_url := "http://internal-host:9000";
     s3_bucket := "test-bucket";
     s3_access_key := "minio";
     s3_secret_key := "minio-secret";
     s3_external_url := "";
     s3_region := "us-east-1";
     s3_upload_expiration := 60;
     s3_use_ssl := Some false |}.

(** The wrapper a fresh process constructs from [settings]. *)
Definition service : FileService := fst (__init__ settings fresh_process).

(** A backend that answers: links under the client's endpoint, the
    requested fields echoed with the key, and an empty bucket. *)
Definition working_backend : S3Backend :=
  {| generate_presigned_post c req :=
       Return {| pp_url := endpoint_url (client_args c) +:+ "/" +:+ Bucket req;
                 pp_fields := <["key" := Key req]> (default ∅ (Fields req)) |};
     generate_presigned_url c method prm expires :=
       Return (endpoint_url (client_args c) +:+ "/"
               +:+ default "" (prm !! "Bucket") +:+ "/"
               +:+ default "" (prm !! "Key") +:+ "?X-Amz-Expires=60");
     list_objects c bucket := Return (<["Name" := VStr bucket]> ∅) |}.

(** A backend whose every call raises [e]. *)
Definition failing_backend (e : exn) : S3Backend :=
  {| generate_presigned_post _ _ := Raise e;
     generate_presigned_url _ _ _ _ := Raise e;
     list_objects _ _ := Raise e |}.

Definition no_such_bucket : exn :=
  ClientError "An error occurred (NoSuchBucket) when calling the ListObjects operation".

(** A git environment in which everything succeeds. *)
Definition working_git : git.GitEnv :=
  {| git.clone_from url dir := Return {| git.repo_origin := url; git.repo_dir := dir |};
     git.index_add _ _ := Return tt;
     git.index_commit _ _ := Return tt;
     git.push _ _ := Return [ {| git.flags := 256 |} ];
     git.rmtree _ := Return tt |}.

(** A git environment whose clone raises [e]. *)
Definition clone_raises (e : exn) : git.GitEnv :=
  {| git.clone_from _ _ := Raise e;
     git.index_add _ _ := Return tt;
     git.index_commit _ _ := Return tt;
     git.push _ _ := Return [ {| git.flags := 256 |} ];
     git.rmtree _ := Return tt |}.

(** A git environment in which the commit and the cleanup raise. *)
Definition commit_and_cleanup_raise : git.GitEnv :=
  {| git.clone_from url dir := Return {| git.repo_origin := url; git.repo_dir := dir |};
     git.index_add _ _ := Return tt;
     git.index_commit _ _ := Raise (PyException "HookExecutionError" "pre-commit hook failed");
     git.push _ _ := Return [];
     git.rmtree _ := Raise (PyException "PermissionError" "Permission denied") |}.

(** A backend whose bucket holds two objects. *)
Definition listing_backend : S3Backend :=
  {| generate_presigned_post _ _ := Raise (ClientError "AccessDenied");
     generate_presigned_url _ _ _ _ := Raise (ClientError "AccessDenied");
     list_objects c bucket :=
       Return (<["Contents" :=
                   VList [ {["Key" := MStr "a.csv"; "Size" := MInt 12]};
                           {["Key" := MStr "b.csv"; "Size" := MInt 0]} ]]>
                 (<["Name" := VStr bucket]> ∅)) |}.

(** Settings whose external URL [urlparse] refuses. *)
Definition settings_bad_external : Settings :=
  {| s3_endpoint_url := "http://internal-host:9000";
     s3_bucket := "test-bucket";
     s3_access_key := "minio";
     s3_secret_key := "minio-secret";
     s3_external_url := "http://[::1:9001";
     s3_region := "us-east-1";
     s3_upload_expiration := 60;
     s3_use_ssl := None |}.

(** A git environment whose push is rejected: the first entry has the
    rejected and the error flags, the second is a plain fast-forward. *)
Definition push_rejected : git.GitEnv :=
  {| git.clone_from url dir := Return {| git.repo_origin := url; git.repo_dir := dir |};
     git.index_add _ _ := Return tt;
     git.index_commit _ _ := Return tt;
     git.push _ _ := Return [ {| git.flags := 1032 |}; {| git.flags := 256 |} ];
     git.rmtree _ := Return tt |}.

(** A case mapping on code points: the letters a-z, and the two other
    characters whose upper case is an ASCII letter, dotless i (U+0131) and
    long s (U+017F); every other code point is kept. *)
Definition upper_code_point (c : N) : N :=
  if ((97 <=? c) && (c <=? 122))%N then (c - 32)%N
  else if (c =? 305)%N then 73%N
  else if (c =? 383)%N then 83%N
  else c.

Definition upper_latin (s : validators.text) : validators.text :=
  List.map upper_code_point s.

End samples.

(** ** Vocabulary of the statements *)

(** A rewritten URL as the specification words it: the returned text
    parses, with the override's scheme and authority and with the input's
    path and query. *)
Definition rewritten_as_claimed {urllib : UrlLib} (url ext r : string) : Prop :=
  exists p_in p_ext p_out,
    urlparse url = Return p_in
    /\ urlparse ext = Return p_ext
    /\ urlparse r = Return p_out
    /\ scheme p_out = scheme p_ext
    /\ netloc p_out = netloc p_ext
    /\ path p_out = path p_in
    /\ query p_out = query p_in.

(** What [wrap_errors] raises for [e]: a [FileServiceError] raised from [e]
    for a [ClientError] or any other [Exception], [e] itself otherwise. *)
Definition domain_error (client_error_prefix : string) (e : exn) : exn :=
  if is_ClientError e
  then FileServiceError (client_error_prefix +:+ str_exn e) e
  else if is_Exception e
  then FileServiceError ("Unexpected error: " +:+ str_exn e) e
  else e.

(** The message of the domain error for [e]: the two kinds of failure
    differ by their text only. *)
Definition error_message (client_error_prefix : string) (e : exn) : string :=
  if is_ClientError e
  then client_error_prefix +:+ str_exn e
  else "Unexpected error: " +:+ str_exn e.

(** An outcome from which no [Exception] other than an [allowed] one
    comes out. *)
Definition raises_only {A} (allowed : exn -> bool) (o : outcome A) : Prop :=
  match o with
  | Return _ => True
  | Raise e => allowed e = true \/ is_Exception e = false
  end.

(** [isinstance(e, HTTPException) and e.status_code == 500] *)
Definition is_HTTP_500 (e : exn) : bool :=
  match e with
  | HTTPException code _ _ => code =? 500
  | _ => false
  end.

(** The URL [replace_url_endpoint] gives, [url] itself if it raised. *)
Definition rewritten {urllib : UrlLib} (url : string) (ext : option string) : string :=
  match file_service.replace_url_endpoint url ext with
  | Return r => r
  | Raise _ => url
  end.

(** The body of the 500 response for [message]: [{detail: message}]. *)
Definition error_response (message : string) : app.http_response :=
  {| app.status := 500; app.body := app.body_object {["detail" := message]} |}.

(** *** Texts and parse results of the urllib.parse model *)

Section UrlVocabulary.
Context {checks : HostChecks}.
Import urllib_parse.

(** Safe text: no tab, carriage return or newline. *)
Definition safe (s : string) : Prop :=
  forallb_str (fun c => negb (is_unsafe c)) s = true.

(** One of [/ ? #], which end an authority. *)
Definition is_delim (c : ascii) : bool :=
  Ascii.eqb c "/" || Ascii.eqb c "?" || Ascii.eqb c "#".

Definition delim_free (s : string) : Prop :=
  forallb_str (fun c => negb (is_delim c)) s = true.

(** Empty, or starting with one of [/ ? #]. *)
Definition starts_delim (s : string) : bool :=
  match s with
  | EmptyString => true
  | String c _ => is_delim c
  end.

(** Empty, or a letter followed by scheme characters, in lower case. *)
Definition valid_scheme (s : string) : Prop :=
  s = ""
  \/ ((exists c rest, s = String c rest /\ is_alpha c = true)
      /\ forallb_str is_scheme_char s = true
      /\ lower s = s).

(** Empty, or starting with [/]. *)
Definition starts_root (s : string) : bool :=
  match s with
  | EmptyString => true
  | String c _ => Ascii.eqb c "/"
  end.

(** What holds of every result of [urlsplit]. *)
Record wf_split (sr : SplitResult) : Prop := {
  wf_scheme : valid_scheme (s_scheme sr);
  wf_netloc : delim_free (s_netloc sr);
  wf_netloc_ok : netloc_error (s_netloc sr) = None;
  wf_path_query : contains "?" (s_path sr) = false;
  wf_path_fragment : contains "#" (s_path sr) = false;
  wf_path_root : s_netloc sr <> "" -> starts_root (s_path sr) = true;
  wf_query_fragment : contains "#" (s_query sr) = false;
  wf_safe_netloc : safe (s_netloc sr);
  wf_safe_path : safe (s_path sr);
  wf_safe_query : safe (s_query sr);
  wf_safe_fragment : safe (s_fragment sr)
}.

(** The scheme with its colon, if there is a scheme. *)
Definition scheme_prefix (sch : string) : string :=
  if nonempty sch then sch +:+ ":" else "".

(** A query or fragment with its mark, if it is not empty. *)
Definition opt_part (c : ascii) (s : string) : string :=
  if nonempty s then String c s else "".

(** The path with its parameters, as [urlunparse] joins them. *)
Definition rejoin (pth prm : string) : string :=
  if nonempty prm then pth +:+ ";" +:+ prm else pth.

End UrlVocabulary.

(** Empty, or starting with a character that is not white space. *)
Definition no_leading_space (s : validators.text) : Prop :=
  match s with
  | [] => True
  | c :: _ => validators.is_space c = false
  end.

(** The clients created so far are numbered by position, as they are in a
    fresh process and after every construction. *)
Definition ids_are_positions (p : file_service.process) : Prop :=
  map client_id (file_service.clients p) = seq 0 (length (file_service.clients p)).

(** The client a backend call is made on. *)
Definition call_client (c : s3_call) : s3_client :=
  match c with
  | call_generate_presigned_post cl _ => cl
  | call_generate_presigned_url cl _ _ _ => cl
  | call_list_objects cl _ => cl
  end.

(** One wrapper and one client for all the requests served, as the
    specification words it. *)
Definition served_by_one_wrapper (ss : list app.served) : Prop :=
  forall s1 s2, In s1 ss -> In s2 ss -> app.wrapper s1 = app.wrapper s2.

(** * Properties *)

(** ** The urllib.parse model is a [UrlLib] *)

Section CPythonUrlLib.
Context {checks : HostChecks}.

(** Everything [urlsplit] raises is a [ValueError]. *)
Lemma urlsplit_raises_Exception u e :
  urllib_parse.urlsplit u = Raise e -> is_Exception e = true.
Proof.
  unfold urllib_parse.urlsplit.
  destruct (urllib_parse.split_scheme _) as [sch url].
  destruct (match urllib_parse.after_2slash url with
            | Some rest => urllib_parse._splitnetloc rest
            | None => (EmptyString, url)
            end) as [nl url'].
  destruct (urllib_parse.netloc_error nl).
  - intros [= <-]. reflexivity.
  - destruct (urllib_parse.split_at "#" url') as [u1 frag].
    destruct (urllib_parse.split_at "?" u1) as [u2 qry]. discriminate.
Qed.

Lemma cpython_urlparse_raises_Exception u e :
  urllib_parse.urlparse u = Raise e -> is_Exception e = true.
Proof.
  unfold urllib_parse.urlparse.
  destruct (urllib_parse.urlsplit u) as [sr|e'] eqn:E.
  - destruct (_ && _); [destruct (urllib_parse._splitparams _)|]; discriminate.
  - intros [= <-]. eapply urlsplit_raises_Exception, E.
Qed.

#[global] Instance cpython_urllib : UrlLib := {|
  urlparse := urllib_parse.urlparse;
  urlunparse := urllib_parse.urlunparse;
  urlparse_raises_Exception := cpython_urlparse_raises_Exception
|}.

End CPythonUrlLib.

(** ** The URL rewriter *)

Section UrlRewriter.
Context {urllib : UrlLib}.

Import file_service.

Lemma replace_url_endpoint_falsy (url : string) (ext : option string) :
  truthy ext = false -> replace_url_endpoint url ext = Return url.
Proof. intros Hf. unfold replace_url_endpoint. now rewrite Hf. Qed.

Lemma replace_url_endpoint_try_raises_Exception (url ext : string) (e : exn) :
  replace_url_endpoint_try url ext = Raise e -> is_Exception e = true.
Proof.
  unfold replace_url_endpoint_try.
  destruct (urlparse url) as [parsed|e1] eqn:E1.
  - destruct (urlparse ext) as [external_parsed|e2] eqn:E2; [discriminate|].
    intros [= <-]. eapply urlparse_raises_Exception, E2.
  - intros [= <-]. eapply urlparse_raises_Exception, E1.
Qed.

(** C5: with no override the rewriter is the identity, an empty override
    counts as none, and the constructor stores an empty external-URL
    setting as [None] (a non-empty one as it is). *)
Theorem replace_url_endpoint_identity_without_override (url : string) :
  replace_url_endpoint url None = Return url
  /\ replace_url_endpoint url (Some "") = Return url
  /\ (forall settings p,
        external_url (fst (__init__ settings p))
        = if String.eqb (s3_external_url settings) ""
          then None else Some (s3_external_url settings))
  /\ (forall settings p,
        replace_url_endpoint url
          (external_url (fst (__init__ settings p)))
        = replace_url_endpoint url (Some (s3_external_url settings))).
Proof.
  repeat split.
  - intros settings p. unfold __init__, boto3_client. simpl.
    now destruct (String.eqb (s3_external_url settings) "").
  - intros settings p. unfold __init__, boto3_client. simpl.
    destruct (String.eqb (s3_external_url settings) "") eqn:E; simpl; [|reflexivity].
    apply String.eqb_eq in E. rewrite E. reflexivity.
Qed.

Lemma replace_url_endpoint_returns (url : string) (ext : option string) :
  exists r, replace_url_endpoint url ext = Return r.
Proof.
  unfold replace_url_endpoint.
  destruct (truthy ext); simpl; [|now exists url].
  destruct (replace_url_endpoint_try url (default "" ext)) as [r|e] eqn:E.
  - now exists r.
  - rewrite (replace_url_endpoint_try_raises_Exception _ _ _ E). now exists url.
Qed.

(** C7: the rewriter returns for every URL and every override, and when a
    step of the [try] block raises it returns the input URL. *)
Theorem replace_url_endpoint_never_raises (url : string) (ext : option string) :
  (exists r, replace_url_endpoint url ext = Return r)
  /\ (forall e, replace_url_endpoint_try url (default "" ext) = Raise e ->
                replace_url_endpoint url ext = Return url).
Proof.
  unfold replace_url_endpoint.
  destruct (truthy ext); simpl.
  - destruct (replace_url_endpoint_try url (default "" ext)) as [r|e] eqn:E.
    + split; [now exists r|]. intros e; discriminate.
    + rewrite (replace_url_endpoint_try_raises_Exception _ _ _ E).
      split; [now exists url|]. reflexivity.
  - split; [now exists url|]. reflexivity.
Qed.

(** With a non-empty override: the joined components when [urlparse]
    accepts both texts, the input URL when it rejects either. *)
Lemma replace_url_endpoint_spec (url ext : string) :
  ext <> "" ->
  match urlparse url, urlparse ext with
  | Return parsed, Return external_parsed =>
      replace_url_endpoint url (Some ext)
      = Return (urlunparse {| scheme := scheme external_parsed;
                              netloc := netloc external_parsed;
                              path := path parsed;
                              params := params parsed;
                              query := query parsed;
                              fragment := fragment parsed |})
  | _, _ => replace_url_endpoint url (Some ext) = Return url
  end.
Proof.
  intros Hne.
  assert (Ht : truthy (Some ext) = true).
  { simpl. destruct (String.eqb ext "") eqn:E; [|reflexivity].
    apply String.eqb_eq in E. contradiction. }
  unfold replace_url_endpoint. rewrite Ht. simpl.
  unfold replace_url_endpoint_try.
  destruct (urlparse url) as [parsed|e1] eqn:E1.
  - destruct (urlparse ext) as [external_parsed|e2] eqn:E2; [reflexivity|].
    now rewrite (urlparse_raises_Exception _ _ E2).
  - now rewrite (urlparse_raises_Exception _ _ E1).
Qed.

End UrlRewriter.

(** ** Re-parsing a rewritten URL (the urllib.parse model) *)

Section StringFacts.
Context {checks : HostChecks}.
Import urllib_parse.
#[local] Arguments String.append !_ _ / : simpl nomatch.

Lemma append_nil_r (s : string) : s +:+ "" = s.
Proof. induction s; simpl; congruence. Qed.

Lemma append_assoc (a b c : string) : (a +:+ b) +:+ c = a +:+ (b +:+ c).
Proof. induction a; simpl; congruence. Qed.

Lemma contains_app (c : ascii) (a b : string) :
  contains c (a +:+ b) = contains c a || contains c b.
Proof.
  induction a as [|x a IH]; simpl; [reflexivity|].
  rewrite IH. now rewrite orb_assoc.
Qed.

Lemma forallb_str_app (f : ascii -> bool) (a b : string) :
  forallb_str f (a +:+ b) = forallb_str f a && forallb_str f b.
Proof.
  induction a as [|x a IH]; simpl; [reflexivity|].
  rewrite IH. now rewrite andb_assoc.
Qed.

Lemma partition_inv (c : ascii) (s l r : string) :
  partition c s = Some (l, r) ->
  s = l +:+ String c r /\ contains c l = false.
Proof.
  revert l r. induction s as [|a s IH]; simpl; intros l r; [discriminate|].
  destruct (Ascii.eqb a c) eqn:E.
  - intros [= <- <-]. apply Ascii.eqb_eq in E. subst a. now split.
  - destruct (partition c s) as [[l' r']|]; [|discriminate].
    intros [= <- <-]. destruct (IH _ _ eq_refl) as [-> Hl].
    simpl. rewrite E. now split.
Qed.

Lemma partition_None (c : ascii) (s : string) :
  contains c s = false -> partition c s = None.
Proof.
  induction s as [|a s IH]; simpl; [reflexivity|].
  destruct (Ascii.eqb a c); simpl; [discriminate|].
  intros Hs. now rewrite (IH Hs).
Qed.

Lemma partition_app (c : ascii) (l r : string) :
  contains c l = false -> partition c (l +:+ String c r) = Some (l, r).
Proof.
  induction l as [|a l IH]; simpl.
  - intros _. now rewrite Ascii.eqb_refl.
  - destruct (Ascii.eqb a c); simpl; [discriminate|].
    intros Hl. now rewrite (IH Hl).
Qed.

Lemma partition_contains (c : ascii) (s : string) :
  contains c s = true -> exists l r, partition c s = Some (l, r).
Proof.
  induction s as [|a s IH]; simpl; [discriminate|].
  destruct (Ascii.eqb a c); simpl; [eauto|].
  intros Hs. destruct (IH Hs) as (l & r & ->). eauto.
Qed.

Lemma rpartition_inv (c : ascii) (s l r : string) :
  rpartition c s = Some (l, r) ->
  s = l +:+ String c r /\ contains c r = false.
Proof.
  revert l r. induction s as [|a s IH]; simpl; intros l r; [discriminate|].
  destruct (rpartition c s) as [[l' r']|] eqn:E.
  - intros [= <- <-]. destruct (IH _ _ eq_refl) as [-> Hr]. now split.
  - destruct (Ascii.eqb a c) eqn:Ea; [|discriminate].
    intros [= <- <-]. apply Ascii.eqb_eq in Ea. subst a. split; [reflexivity|].
    clear IH. induction s as [|b s IHs]; simpl in *; [reflexivity|].
    destruct (rpartition c s) as [[? ?]|]; [discriminate|].
    destruct (Ascii.eqb b c); [discriminate|]. simpl. now apply IHs.
Qed.

Lemma rpartition_None (c : ascii) (s : string) :
  contains c s = false -> rpartition c s = None.
Proof.
  induction s as [|a s IH]; simpl; [reflexivity|].
  destruct (Ascii.eqb a c); simpl; [discriminate|].
  intros Hs. now rewrite (IH Hs).
Qed.

Lemma rpartition_None_inv (c : ascii) (s : string) :
  rpartition c s = None -> contains c s = false.
Proof.
  induction s as [|a s IH]; simpl; [reflexivity|].
  destruct (rpartition c s) as [[? ?]|]; [discriminate|].
  destruct (Ascii.eqb a c); [discriminate|]. intros _. now apply IH.
Qed.

Lemma rpartition_app (c : ascii) (l r : string) :
  contains c r = false -> rpartition c (l +:+ String c r) = Some (l, r).
Proof.
  intros Hr. induction l as [|a l IH]; simpl.
  - rewrite (rpartition_None _ _ Hr). now rewrite Ascii.eqb_refl.
  - now rewrite IH.
Qed.

Lemma split_at_inv (c : ascii) (s l r : string) :
  split_at c s = (l, r) ->
  contains c l = false
  /\ ((s = l /\ r = "") \/ s = l +:+ String c r).
Proof.
  unfold split_at. destruct (partition c s) as [[l' r']|] eqn:E.
  - intros [= <- <-]. destruct (partition_inv _ _ _ _ E) as [-> Hl].
    split; [exact Hl|now right].
  - intros [= <- <-]. split; [|now left].
    destruct (contains c s) eqn:Ec; [|reflexivity].
    destruct (partition_contains _ _ Ec) as (l & r & El). congruence.
Qed.

Lemma split_at_app (c : ascii) (l r : string) :
  contains c l = false -> split_at c (l +:+ String c r) = (l, r).
Proof. intros Hl. unfold split_at. now rewrite partition_app. Qed.

Lemma split_at_None (c : ascii) (s : string) :
  contains c s = false -> split_at c s = (s, "").
Proof. intros Hs. unfold split_at. now rewrite partition_None. Qed.

(** *** Characters *)

Ltac by_cases_on_char c :=
  destruct c as [[] [] [] [] [] [] [] []]; try reflexivity; try discriminate.

Lemma is_unsafe_lower_char (c : ascii) : is_unsafe (lower_char c) = is_unsafe c.
Proof. by_cases_on_char c. Qed.

Lemma is_alpha_lower_char (c : ascii) : is_alpha (lower_char c) = is_alpha c.
Proof. by_cases_on_char c. Qed.

Lemma is_scheme_char_lower_char (c : ascii) :
  is_scheme_char (lower_char c) = is_scheme_char c.
Proof. by_cases_on_char c. Qed.

Lemma lower_char_idem (c : ascii) : lower_char (lower_char c) = lower_char c.
Proof. by_cases_on_char c. Qed.

Lemma scheme_char_not_colon (c : ascii) :
  is_scheme_char c = true -> Ascii.eqb c ":" = false.
Proof. by_cases_on_char c. Qed.

Lemma scheme_char_safe (c : ascii) :
  is_scheme_char c = true -> negb (is_unsafe c) = true.
Proof. by_cases_on_char c. Qed.

Lemma alpha_not_stripped (c : ascii) :
  is_alpha c = true -> (nat_of_ascii c <=? 32)%nat = false.
Proof. by_cases_on_char c. Qed.

(** *** Safe text: no tab, carriage return or newline *)

Lemma safe_app (a b : string) : safe (a +:+ b) <-> safe a /\ safe b.
Proof. unfold safe. rewrite forallb_str_app. apply andb_true_iff. Qed.

Lemma safe_cons (c : ascii) (s : string) :
  safe (String c s) <-> negb (is_unsafe c) = true /\ safe s.
Proof. unfold safe. simpl. apply andb_true_iff. Qed.

Lemma safe_nil : safe "".
Proof. reflexivity. Qed.

Lemma remove_unsafe_is_safe (s : string) : safe (remove_unsafe s).
Proof.
  unfold safe, remove_unsafe.
  induction s as [|c s IH]; simpl; [reflexivity|].
  destruct (negb (is_unsafe c)) eqn:E; simpl; [now rewrite E|exact IH].
Qed.

Lemma remove_unsafe_safe (s : string) : safe s -> remove_unsafe s = s.
Proof.
  unfold safe, remove_unsafe.
  induction s as [|c s IH]; simpl; [reflexivity|].
  intros [Hc Hs]%andb_true_iff. rewrite Hc. now rewrite (IH Hs).
Qed.

Lemma safe_lower (s : string) : safe s -> safe (lower s).
Proof.
  unfold safe. induction s as [|c s IH]; simpl; [reflexivity|].
  intros [Hc Hs]%andb_true_iff. rewrite is_unsafe_lower_char, Hc. now apply IH.
Qed.

Lemma scheme_chars_safe (s : string) :
  forallb_str is_scheme_char s = true -> safe s.
Proof.
  unfold safe. induction s as [|c s IH]; simpl; [reflexivity|].
  intros [Hc Hs]%andb_true_iff. rewrite (scheme_char_safe _ Hc). now apply IH.
Qed.

Lemma scheme_chars_no_colon (s : string) :
  forallb_str is_scheme_char s = true -> contains ":" s = false.
Proof.
  induction s as [|c s IH]; simpl; [reflexivity|].
  intros [Hc Hs]%andb_true_iff. rewrite (scheme_char_not_colon _ Hc). now apply IH.
Qed.

Lemma scheme_chars_lower (s : string) :
  forallb_str is_scheme_char (lower s) = forallb_str is_scheme_char s.
Proof.
  induction s as [|c s IH]; simpl; [reflexivity|].
  now rewrite is_scheme_char_lower_char, IH.
Qed.

Lemma lower_idem (s : string) : lower (lower s) = lower s.
Proof.
  induction s as [|c s IH]; simpl; [reflexivity|].
  now rewrite lower_char_idem, IH.
Qed.

(** *** The authority splitter *)

Lemma _splitnetloc_inv (s n r : string) :
  _splitnetloc s = (n, r) ->
  s = n +:+ r /\ delim_free n /\ starts_delim r = true.
Proof.
  unfold delim_free.
  revert n r. induction s as [|c s IH]; simpl; intros n r.
  - intros [= <- <-]. repeat split.
  - fold (is_delim c). destruct (is_delim c) eqn:E.
    + intros [= <- <-]. simpl. rewrite E. repeat split.
    + destruct (_splitnetloc s) as [n' r']. intros [= <- <-].
      destruct (IH _ _ eq_refl) as (-> & Hn & Hr).
      simpl. rewrite E. simpl. repeat split; assumption.
Qed.

Lemma _splitnetloc_app (n r : string) :
  delim_free n -> starts_delim r = true -> _splitnetloc (n +:+ r) = (n, r).
Proof.
  unfold delim_free. intros Hn Hr.
  induction n as [|c n IH]; simpl.
  - destruct r as [|c r]; simpl; [reflexivity|].
    simpl in Hr. fold (is_delim c). now rewrite Hr.
  - simpl in Hn. apply andb_true_iff in Hn as [Hc Hn].
    fold (is_delim c). apply negb_true_iff in Hc. rewrite Hc.
    now rewrite (IH Hn).
Qed.

Lemma delim_free_contains (s : string) (c : ascii) :
  is_delim c = true -> delim_free s -> contains c s = false.
Proof.
  unfold delim_free. intros Hc.
  induction s as [|a s IH]; simpl; [reflexivity|].
  intros [Ha Hs]%andb_true_iff. rewrite (IH Hs), orb_false_r.
  destruct (Ascii.eqb a c) eqn:E; [|reflexivity].
  apply Ascii.eqb_eq in E. subst a. now rewrite Hc in Ha.
Qed.

(** *** The scheme *)

Lemma valid_scheme_safe (s : string) : valid_scheme s -> safe s.
Proof.
  intros [->|(_ & Hs & _)]; [reflexivity|]. now apply scheme_chars_safe.
Qed.

Lemma split_scheme_inv (url sch rest : string) :
  safe url -> split_scheme url = (sch, rest) -> valid_scheme sch /\ safe rest.
Proof.
  intros Hsafe. unfold split_scheme.
  destruct (partition ":" url) as [[pre after]|] eqn:E.
  - destruct pre as [|c0 pre].
    + intros [= <- <-]. split; [now left|exact Hsafe].
    + destruct (is_alpha c0 && forallb_str is_scheme_char (String c0 pre)) eqn:Ev.
      * intros [= <- <-]. apply andb_true_iff in Ev as [Ha Hs].
        destruct (partition_inv _ _ _ _ E) as [Hurl _].
        split.
        -- right. split; [|split].
           ++ exists (lower_char c0), (lower pre). split; [reflexivity|].
              now rewrite is_alpha_lower_char.
           ++ exact (eq_trans (scheme_chars_lower (String c0 pre)) Hs).
           ++ exact (lower_idem (String c0 pre)).
        -- rewrite Hurl in Hsafe. apply safe_app in Hsafe as [_ Hs2].
           now apply safe_cons in Hs2 as [_ Hs2].
      * intros [= <- <-]. split; [now left|exact Hsafe].
  - intros [= <- <-]. split; [now left|exact Hsafe].
Qed.

Lemma split_scheme_unsplit (sch rest : string) :
  valid_scheme sch -> sch <> "" ->
  split_scheme (sch +:+ String ":" rest) = (sch, rest).
Proof.
  intros [->|((c & pre & -> & Ha) & Hs & Hl)] Hne; [contradiction|].
  unfold split_scheme.
  rewrite (partition_app ":" _ rest (scheme_chars_no_colon _ Hs)).
  rewrite Ha, Hs. simpl andb. cbv iota. now rewrite Hl.
Qed.

Lemma split_scheme_slash (rest : string) :
  split_scheme (String "/" rest) = ("", String "/" rest).
Proof.
  unfold split_scheme. simpl.
  destruct (partition ":" rest) as [[l r]|]; reflexivity.
Qed.

(** *** What [urlsplit] gives *)

Lemma after_2slash_inv (s rest : string) :
  after_2slash s = Some rest -> s = String "/" (String "/" rest).
Proof.
  destruct s as [|a [|b s]]; simpl; try discriminate.
  destruct (Ascii.eqb a "/") eqn:Ea; [|discriminate].
  destruct (Ascii.eqb b "/") eqn:Eb; [|discriminate].
  apply Ascii.eqb_eq in Ea, Eb. subst. now intros [= ->].
Qed.

(** A path cut out of a text that starts with a delimiter, and that holds
    neither [?] nor [#], is empty or starts with [/]. *)
Lemma starts_root_of_prefix (pth t r : string) :
  starts_delim r = true -> r = pth +:+ t ->
  contains "?" pth = false -> contains "#" pth = false ->
  starts_root pth = true.
Proof.
  intros Hr -> Hq Hf. destruct pth as [|c pth]; [reflexivity|].
  simpl in *. unfold is_delim in Hr.
  apply orb_false_iff in Hq as [Hq _]. apply orb_false_iff in Hf as [Hf _].
  rewrite Hq, Hf in Hr. now rewrite !orb_false_r in Hr.
Qed.

Lemma urlsplit_wf (u : string) (sr : SplitResult) :
  urlsplit u = Return sr -> wf_split sr.
Proof.
  unfold urlsplit.
  pose proof (remove_unsafe_is_safe (lstrip_c0 u)) as Hsafe.
  destruct (split_scheme _) as [sch rest] eqn:Es.
  destruct (split_scheme_inv _ _ _ Hsafe Es) as [Hsch Hrest].
  assert (Hn : exists nl r2,
             match after_2slash rest with
             | Some x => _splitnetloc x
             | None => (EmptyString, rest)
             end = (nl, r2)
             /\ delim_free nl /\ safe nl /\ safe r2
             /\ (nl <> "" -> starts_delim r2 = true)).
  { destruct (after_2slash rest) as [x|] eqn:E2.
    - apply after_2slash_inv in E2. subst rest.
      do 2 apply safe_cons in Hrest as [_ Hrest].
      destruct (_splitnetloc x) as [nl r2] eqn:En.
      destruct (_splitnetloc_inv _ _ _ En) as (-> & Hd & Hr).
      apply safe_app in Hrest as [H1 H2].
      exists nl, r2.
      split; [reflexivity|]. split; [exact Hd|]. split; [exact H1|].
      split; [exact H2|]. intros _. exact Hr.
    - exists "", rest.
      split; [reflexivity|]. split; [reflexivity|]. split; [reflexivity|].
      split; [exact Hrest|]. intros Hne. contradiction. }
  destruct Hn as (nl & r2 & -> & Hd & Hsn & Hsr & Hroot).
  destruct (netloc_error nl) eqn:Ee; [discriminate|].
  destruct (split_at "#" r2) as [u1 frag] eqn:E1.
  destruct (split_at "?" u1) as [pth qry] eqn:E2.
  intros [= <-].
  destruct (split_at_inv _ _ _ _ E1) as [Hf1 H1].
  destruct (split_at_inv _ _ _ _ E2) as [Hq2 H2].
  assert (Hu1 : safe u1 /\ safe frag /\ exists t1, r2 = u1 +:+ t1).
  { destruct H1 as [[-> ->]| ->].
    - split; [exact Hsr|]. split; [reflexivity|].
      exists "". now rewrite append_nil_r.
    - apply safe_app in Hsr as [Ha Hb]. apply safe_cons in Hb as [_ Hb].
      split; [exact Ha|]. split; [exact Hb|]. now eexists. }
  destruct Hu1 as (Hsu1 & Hsf & t1 & Ht1).
  assert (Hp : safe pth /\ safe qry /\ contains "#" pth = false
               /\ contains "#" qry = false /\ exists t2, u1 = pth +:+ t2).
  { destruct H2 as [[-> ->]| ->].
    - split; [exact Hsu1|]. split; [reflexivity|]. split; [exact Hf1|].
      split; [reflexivity|]. exists "". now rewrite append_nil_r.
    - apply safe_app in Hsu1 as [Ha Hb]. apply safe_cons in Hb as [_ Hb].
      rewrite contains_app in Hf1. apply orb_false_iff in Hf1 as [Hfa Hfb].
      simpl in Hfb.
      split; [exact Ha|]. split; [exact Hb|]. split; [exact Hfa|].
      split; [exact Hfb|]. now eexists. }
  destruct Hp as (Hsp & Hsq & Hfp & Hfq & t2 & Ht2).
  constructor; simpl; try assumption.
  intros Hne. apply (starts_root_of_prefix pth (t2 +:+ t1) r2 (Hroot Hne));
    try assumption.
  now rewrite Ht1, Ht2, append_assoc.
Qed.

(** *** Splitting what [urlunsplit] joined *)

Lemma nonempty_true (s : string) : s <> "" -> nonempty s = true.
Proof. destruct s; [contradiction|reflexivity]. Qed.

Lemma urlunsplit_eq (sch nl url qry frag : string) :
  nl <> "" -> starts_root url = true ->
  urlunsplit sch nl url qry frag
  = scheme_prefix sch
    +:+ String "/" (String "/"
          (nl +:+ (url +:+ (opt_part "?" qry +:+ opt_part "#" frag)))).
Proof.
  intros Hnl Hroot. unfold urlunsplit, scheme_prefix, opt_part.
  rewrite (nonempty_true _ Hnl). simpl orb. cbv iota.
  assert (Hurl : (if nonempty url && negb (starts_with_slash url)
                  then "/" +:+ url else url) = url).
  { destruct url as [|c url]; [reflexivity|]. simpl in Hroot.
    unfold starts_with_slash. now rewrite Hroot. }
  rewrite Hurl.
  destruct (nonempty sch), (nonempty qry), (nonempty frag); simpl;
    rewrite ?append_assoc, ?append_nil_r; simpl; rewrite ?append_assoc;
    reflexivity.
Qed.

Lemma opt_part_split (c : ascii) (pre s : string) :
  contains c pre = false ->
  split_at c (pre +:+ opt_part c s) = (pre, s).
Proof.
  intros Hpre. unfold opt_part. destruct s as [|a s]; simpl.
  - rewrite append_nil_r. now apply split_at_None.
  - now apply split_at_app.
Qed.

Lemma lstrip_c0_kept (c : ascii) (s : string) :
  (nat_of_ascii c <=? 32)%nat = false -> lstrip_c0 (String c s) = String c s.
Proof. intros Hc. simpl. now rewrite Hc. Qed.

Lemma urlsplit_urlunsplit (sch nl url qry frag : string) :
  valid_scheme sch -> delim_free nl -> netloc_error nl = None -> nl <> "" ->
  contains "?" url = false -> contains "#" url = false ->
  starts_root url = true -> contains "#" qry = false ->
  safe nl -> safe url -> safe qry -> safe frag ->
  urlsplit (urlunsplit sch nl url qry frag)
  = Return {| s_scheme := sch; s_netloc := nl; s_path := url;
              s_query := qry; s_fragment := frag |}.
Proof.
  intros Hsch Hd He Hnl Hq Hf Hroot Hqf Hsn Hsu Hsq Hsf.
  rewrite (urlunsplit_eq _ _ _ _ _ Hnl Hroot).
  set (T := url +:+ (opt_part "?" qry +:+ opt_part "#" frag)).
  assert (HsT : safe T).
  { unfold T, opt_part. apply safe_app. split; [exact Hsu|].
    apply safe_app. split.
    - destruct (nonempty qry); [|reflexivity]. now apply safe_cons.
    - destruct (nonempty frag); [|reflexivity]. now apply safe_cons. }
  assert (Hbody : safe (String "/" (String "/" (nl +:+ T)))).
  { do 2 (apply safe_cons; split; [reflexivity|]). now apply safe_app. }
  assert (HdT : starts_delim T = true).
  { unfold T, opt_part. destruct url as [|c url].
    - simpl. destruct (nonempty qry); [reflexivity|].
      simpl. destruct (nonempty frag); reflexivity.
    - simpl in Hroot |- *. unfold is_delim. now rewrite Hroot. }
  assert (HT1 : split_at "#" T = (url +:+ opt_part "?" qry, frag)).
  { unfold T. rewrite <- append_assoc. apply opt_part_split.
    rewrite contains_app, Hf. unfold opt_part.
    destruct (nonempty qry); [simpl; exact Hqf|reflexivity]. }
  assert (HT2 : split_at "?" (url +:+ opt_part "?" qry) = (url, qry))
    by now apply opt_part_split.
  unfold urlsplit.
  assert (Hclean : forall r,
             safe r -> (exists c r', r = String c r'
                                     /\ (nat_of_ascii c <=? 32)%nat = false) ->
             remove_unsafe (lstrip_c0 r) = r).
  { intros r Hr (c & r' & -> & Hc). rewrite (lstrip_c0_kept _ _ Hc).
    now apply remove_unsafe_safe. }
  destruct Hsch as [->|Hv].
  - unfold scheme_prefix. simpl nonempty. cbv iota. simpl String.append at 1.
    rewrite (Hclean _ Hbody) by (eexists _, _; split; reflexivity).
    rewrite split_scheme_slash. simpl after_2slash. cbv iota.
    rewrite (_splitnetloc_app _ _ Hd HdT), He, HT1, HT2. reflexivity.
  - pose proof Hv as ((c & pre & Hs & Ha) & Hs2 & Hl).
    assert (Hne : sch <> "") by (rewrite Hs; discriminate).
    unfold scheme_prefix. rewrite (nonempty_true _ Hne).
    rewrite append_assoc. simpl String.append at 2.
    rewrite Hclean.
    + rewrite (split_scheme_unsplit _ _ (or_intror Hv) Hne).
      simpl after_2slash. cbv iota.
      rewrite (_splitnetloc_app _ _ Hd HdT), He, HT1, HT2. reflexivity.
    + apply safe_app. split; [now apply scheme_chars_safe|].
      apply safe_cons. split; [reflexivity|exact Hbody].
    + rewrite Hs. simpl. exists c. eexists. split; [reflexivity|].
      now apply alpha_not_stripped.
Qed.

(** *** Parameters *)

Lemma nonempty_nil : nonempty "" = false.
Proof. reflexivity. Qed.

Lemma nonempty_cons (a : ascii) (s : string) : nonempty (String a s) = true.
Proof. reflexivity. Qed.

Lemma contains_cons_same (c : ascii) (s : string) : contains c (String c s) = true.
Proof. simpl. now rewrite Ascii.eqb_refl. Qed.

(** Joining the two parts [_splitparams] gave, and splitting again, gives
    the same two parts; the joined text is the split one, short of a
    trailing [;] when the parameters are empty. *)
Lemma splitparams_rejoin (flag : bool) (sp pth prm : string) :
  (if flag && contains ";" sp then _splitparams sp else (sp, ""))
  = (pth, prm) ->
  (rejoin pth prm = sp \/ sp = rejoin pth prm +:+ ";")
  /\ (if flag && contains ";" (rejoin pth prm)
      then _splitparams (rejoin pth prm) else (rejoin pth prm, ""))
     = (pth, prm).
Proof.
  destruct (flag && contains ";" sp) eqn:Ec.
  2:{ intros [= <- <-]. unfold rejoin. simpl. split; [now left|].
      now rewrite Ec. }
  apply andb_true_iff in Ec as [-> Hc]. simpl andb.
  unfold _splitparams.
  destruct (rpartition "/" sp) as [[head tail]|] eqn:Er.
  - destruct (rpartition_inv _ _ _ _ Er) as [Hsp Htail].
    destruct (partition ";" tail) as [[l r]|] eqn:Ep.
    + destruct (partition_inv _ _ _ _ Ep) as [Ht Hl].
      intros [= <- <-].
      rewrite Ht, contains_app in Htail.
      apply orb_false_iff in Htail as [Hl2 Hr2]. simpl in Hr2.
      unfold rejoin. destruct r as [|a r];
        rewrite ?nonempty_nil, ?nonempty_cons; cbv iota.
      * split.
        -- right. rewrite Hsp, Ht. now rewrite !append_assoc.
        -- simpl String.append.
           destruct (contains ";" (head +:+ String "/" l)); [|reflexivity].
           rewrite (rpartition_app "/" head l Hl2).
           now rewrite (partition_None _ _ Hl).
      * assert (E : (head +:+ String "/" l) +:+ ";" +:+ String a r
                    = head +:+ String "/" (l +:+ String ";" (String a r))).
        { now rewrite !append_assoc. }
        split.
        -- left. now rewrite E, Hsp, Ht.
        -- rewrite E. rewrite contains_app. simpl contains at 2.
           rewrite contains_app, contains_cons_same, !orb_true_r.
           rewrite rpartition_app.
           ++ now rewrite (partition_app ";" l _ Hl).
           ++ rewrite contains_app, Hl2. exact Hr2.
    + intros [= <- <-]. unfold rejoin. rewrite nonempty_nil. cbv iota.
      split; [now left|]. now rewrite Hc, Er, Ep.
  - pose proof (rpartition_None_inv _ _ Er) as Hslash.
    destruct (partition_contains _ _ Hc) as (l & r & Ep).
    unfold split_at. rewrite Ep. intros [= <- <-].
    destruct (partition_inv _ _ _ _ Ep) as [Hsp Hl].
    unfold rejoin. destruct r as [|a r];
        rewrite ?nonempty_nil, ?nonempty_cons; cbv iota.
    + split; [right; exact Hsp|]. now rewrite Hl.
    + assert (E : l +:+ ";" +:+ String a r = sp) by now rewrite Hsp.
      split; [now left|]. rewrite E, Hc, Er. unfold split_at. now rewrite Ep.
Qed.

Lemma rejoin_contains (c : ascii) (sp u1 : string) :
  u1 = sp \/ sp = u1 +:+ ";" -> contains c sp = false -> contains c u1 = false.
Proof.
  intros [->| ->]; [trivial|]. rewrite contains_app.
  now intros [H1 _]%orb_false_iff.
Qed.

Lemma rejoin_safe (sp u1 : string) :
  u1 = sp \/ sp = u1 +:+ ";" -> safe sp -> safe u1.
Proof. intros [->| ->]; [trivial|]. now intros [H1 _]%safe_app. Qed.

Lemma rejoin_starts_root (sp u1 : string) :
  u1 = sp \/ sp = u1 +:+ ";" -> starts_root sp = true -> starts_root u1 = true.
Proof. intros [->| ->]; [trivial|]. now destruct u1. Qed.

(** *** [urlparse] after [urlunparse] *)

Lemma urlparse_inv (u : string) (p : ParseResult) :
  urlparse u = Return p ->
  exists sr,
    urlsplit u = Return sr
    /\ scheme p = s_scheme sr /\ netloc p = s_netloc sr
    /\ query p = s_query sr /\ fragment p = s_fragment sr
    /\ (if in_list (s_scheme sr) uses_params && contains ";" (s_path sr)
        then _splitparams (s_path sr) else (s_path sr, ""))
       = (path p, params p).
Proof.
  unfold urlparse. destruct (urlsplit u) as [sr|e]; [|discriminate].
  destruct (if in_list (s_scheme sr) uses_params && contains ";" (s_path sr)
            then _splitparams (s_path sr) else (s_path sr, ""))
    as [pth prm] eqn:E.
  intros [= <-]. exists sr. cbn [scheme netloc path params query fragment].
  repeat split. exact E.
Qed.

(** A parsed URL with an authority, put under the scheme and the authority
    of a parsed override that has one, parses back into the very
    components it was joined from, provided the two schemes agree on
    whether a path carries [;parameters]. *)
Lemma urlparse_urlunparse_replaced (url ext : string) (p e : ParseResult) :
  urlparse url = Return p -> urlparse ext = Return e ->
  netloc p <> "" -> netloc e <> "" ->
  in_list (scheme e) uses_params = in_list (scheme p) uses_params ->
  urlparse (urlunparse (_replace_scheme_netloc p (scheme e) (netloc e)))
  = Return (_replace_scheme_netloc p (scheme e) (netloc e)).
Proof.
  intros Hp He Hnp Hne Hflag.
  destruct (urlparse_inv _ _ Hp) as (sp & Hsp & Hp1 & Hp2 & Hp3 & Hp4 & Hp5).
  destruct (urlparse_inv _ _ He) as (se & Hse & He1 & He2 & _).
  pose proof (urlsplit_wf _ _ Hsp) as Wp.
  pose proof (urlsplit_wf _ _ Hse) as We.
  destruct (splitparams_rejoin _ _ _ _ Hp5) as [Hjoin Hagain].
  rewrite <- Hp1, <- Hflag in Hagain.
  unfold urlparse, urlunparse, _replace_scheme_netloc.
  cbn [scheme netloc path params query fragment].
  fold (rejoin (path p) (params p)).
  rewrite Hp2 in Hnp.
  rewrite urlsplit_urlunsplit.
  - cbn [s_scheme s_netloc s_path s_query s_fragment].
    rewrite Hagain. reflexivity.
  - rewrite He1. apply We.
  - rewrite He2. apply We.
  - rewrite He2. apply We.
  - exact Hne.
  - eapply rejoin_contains; [exact Hjoin|apply Wp].
  - eapply rejoin_contains; [exact Hjoin|apply Wp].
  - eapply rejoin_starts_root; [exact Hjoin|]. now apply Wp.
  - rewrite Hp3. apply Wp.
  - rewrite He2. apply We.
  - eapply rejoin_safe; [exact Hjoin|apply Wp].
  - rewrite Hp3. apply Wp.
  - rewrite Hp4. apply Wp.
Qed.

End StringFacts.

(** C3, as the code has it: when [urlparse] accepts both the URL and the
    non-empty override, the result is [urlunparse] of the URL's own path,
    params, query and fragment under the override's scheme and netloc; and
    when both have an authority and their schemes agree on [;parameters],
    the result parses back into exactly these components. When [urlparse]
    rejects either text, the result is the input URL. *)
Theorem replace_url_endpoint_replaces_scheme_and_netloc
    {checks : HostChecks} (url ext : string) :
  ext <> "" ->
  match urlparse url, urlparse ext with
  | Return parsed, Return external_parsed =>
      let new_parsed :=
        {| scheme := scheme external_parsed;
           netloc := netloc external_parsed;
           path := path parsed;
           params := params parsed;
           query := query parsed;
           fragment := fragment parsed |} in
      file_service.replace_url_endpoint url (Some ext)
      = Return (urlunparse new_parsed)
      /\ (netloc parsed <> "" -> netloc external_parsed <> "" ->
          urllib_parse.in_list (scheme external_parsed) urllib_parse.uses_params
          = urllib_parse.in_list (scheme parsed) urllib_parse.uses_params ->
          urlparse (urlunparse new_parsed) = Return new_parsed)
  | _, _ => file_service.replace_url_endpoint url (Some ext) = Return url
  end.
Proof.
  intros Hne. pose proof (replace_url_endpoint_spec url ext Hne) as Hspec.
  destruct (urlparse url) as [parsed|e1] eqn:E1; [|exact Hspec].
  destruct (urlparse ext) as [external_parsed|e2] eqn:E2; [|exact Hspec].
  cbv zeta. split; [exact Hspec|].
  intros Hnp Hnx Hflag.
  exact (urlparse_urlunparse_replaced url ext _ _ E1 E2 Hnp Hnx Hflag).
Qed.

(** C3, as worded, fails on texts that [urlparse] accepts, and each of the
    three conditions above is needed. A URL without an authority gets a
    [/] before its path under an override that has one; parameters that
    [http] sets apart stay in the path under a scheme that has none; and
    under an override read without an authority, a path that starts with
    [//] is read back as the authority. In each case the returned text
    parses, and its path is not the input's. *)
Lemma replace_url_endpoint_path_not_kept :
  (let url := "mailto:a@b.c" in
   let ext := "http://localhost:9001" in
   let r := "http://localhost:9001/a@b.c" in
   ext <> ""
   /\ urlparse url
      = Return {| scheme := "mailto"; netloc := ""; path := "a@b.c";
                  params := ""; query := ""; fragment := "" |}
   /\ file_service.replace_url_endpoint url (Some ext) = Return r
   /\ urlparse r
      = Return {| scheme := "http"; netloc := "localhost:9001"; path := "/a@b.c";
                  params := ""; query := ""; fragment := "" |}
   /\ ~ rewritten_as_claimed url ext r)
  /\ (let url := "http://h/p;x?q" in
      let ext := "svn://host" in
      let r := "svn://host/p;x?q" in
      ext <> ""
      /\ urlparse url
         = Return {| scheme := "http"; netloc := "h"; path := "/p";
                     params := "x"; query := "q"; fragment := "" |}
      /\ file_service.replace_url_endpoint url (Some ext) = Return r
      /\ urlparse r
         = Return {| scheme := "svn"; netloc := "host"; path := "/p;x";
                     params := ""; query := "q"; fragment := "" |}
      /\ ~ rewritten_as_claimed url ext r)
  /\ (let url := "http://h//x" in
      let ext := "localhost:9001" in
      let r := "localhost://x" in
      ext <> ""
      /\ urlparse url
         = Return {| scheme := "http"; netloc := "h"; path := "//x";
                     params := ""; query := ""; fragment := "" |}
      /\ urlparse ext
         = Return {| scheme := "localhost"; netloc := ""; path := "9001";
                     params := ""; query := ""; fragment := "" |}
      /\ file_service.replace_url_endpoint url (Some ext) = Return r
      /\ urlparse r
         = Return {| scheme := "localhost"; netloc := "x"; path := "";
                     params := ""; query := ""; fragment := "" |}
      /\ ~ rewritten_as_claimed url ext r).
Proof.
  cbv zeta. split; [|split].
  - split; [discriminate|]. split; [reflexivity|]. split; [reflexivity|].
    split; [reflexivity|].
    intros (p_in & p_ext & p_out & Hin & _ & Hout & _ & _ & Hpath & _).
    vm_compute in Hin, Hout. injection Hin as <-. injection Hout as <-.
    discriminate Hpath.
  - split; [discriminate|]. split; [reflexivity|]. split; [reflexivity|].
    split; [reflexivity|].
    intros (p_in & p_ext & p_out & Hin & _ & Hout & _ & _ & Hpath & _).
    vm_compute in Hin, Hout. injection Hin as <-. injection Hout as <-.
    discriminate Hpath.
  - split; [discriminate|]. split; [reflexivity|]. split; [reflexivity|].
    split; [reflexivity|]. split; [reflexivity|].
    intros (p_in & p_ext & p_out & Hin & _ & Hout & _ & _ & Hpath & _).
    vm_compute in Hin, Hout. injection Hin as <-. injection Hout as <-.
    discriminate Hpath.
Qed.

Lemma replace_url_endpoint_replaces_scheme_and_netloc_witness :
  let url := "http://internal-host:9000/test-bucket/report.csv?X-Amz-Expires=60&X-Amz-Signature=ab" in
  let r := "http://localhost:9001/test-bucket/report.csv?X-Amz-Expires=60&X-Amz-Signature=ab" in
  "http://localhost:9001" <> ""
  /\ file_service.replace_url_endpoint url (Some "http://localhost:9001") = Return r
  /\ urlparse r
     = Return {| scheme := "http"; netloc := "localhost:9001";
                 path := "/test-bucket/report.csv"; params := "";
                 query := "X-Amz-Expires=60&X-Amz-Signature=ab";
                 fragment := "" |}.
Proof.
  cbv zeta.
  pose proof (replace_url_endpoint_replaces_scheme_and_netloc
                "http://internal-host:9000/test-bucket/report.csv?X-Amz-Expires=60&X-Amz-Signature=ab"
                "http://localhost:9001" ltac:(discriminate)) as [Hr Hp].
  split; [discriminate|]. split; [exact Hr|].
  exact (Hp ltac:(discriminate) ltac:(discriminate) eq_refl).
Defined.

Lemma replace_url_endpoint_never_raises_witness :
  file_service.replace_url_endpoint_try "http://[::1/test-bucket/report.csv"
    "http://localhost:9001"
  = Raise (PyException "ValueError" "Invalid IPv6 URL")
  /\ file_service.replace_url_endpoint "http://[::1/test-bucket/report.csv"
       (Some "http://localhost:9001")
     = Return "http://[::1/test-bucket/report.csv".
Proof.
  split; [reflexivity|].
  exact (proj2 (replace_url_endpoint_never_raises
                  "http://[::1/test-bucket/report.csv"
                  (Some "http://localhost:9001")) _ eq_refl).
Defined.

(** ** The storage operations *)

Section StorageOperations.
Context {urllib : UrlLib} {backend : S3Backend}.

Import file_service.

Lemma replace_url_endpoint_rewritten (url : string) (ext : option string) :
  replace_url_endpoint url ext = Return (rewritten url ext).
Proof.
  unfold rewritten.
  destruct (replace_url_endpoint_returns url ext) as [r Hr].
  now rewrite Hr.
Qed.

Lemma wrap_errors_eq {A} (prefix : string) (e : exn) :
  @wrap_errors A prefix e = ([], Raise (domain_error prefix e)).
Proof.
  unfold wrap_errors, domain_error, Eff.raise.
  destruct (is_ClientError e); [reflexivity|].
  now destruct (is_Exception e).
Qed.

(** [get_upload_link] makes one backend call and either packs the
    backend's answer or raises the wrapped error. *)
Lemma get_upload_link_eq (self : FileService) (filename : string)
    (content_type : option string) :
  let req := presigned_post_args self filename content_type in
  get_upload_link self filename content_type
  = ([call_generate_presigned_post (_client self) req],
     match generate_presigned_post (_client self) req with
     | Return pp =>
         Return {| upload_link := rewritten (pp_url pp) (external_url self);
                   fields := pp_fields pp;
                   ul_filename := filename;
                   ul_expires_in := upload_expiration self |}
     | Raise e => Raise (domain_error "Failed to generate upload URL: " e)
     end).
Proof.
  cbv zeta. unfold get_upload_link, get_upload_link_try, Eff.try_except,
    Eff.bind, Eff.call, Eff.ret, pure.
  destruct (generate_presigned_post _ _) as [pp|e].
  - now rewrite replace_url_endpoint_rewritten.
  - now rewrite wrap_errors_eq.
Qed.

Lemma get_file_eq (self : FileService) (filename : string) :
  get_file self filename
  = ([call_generate_presigned_url (_client self) "get_object"
        (get_object_params self filename) (upload_expiration self)],
     match generate_presigned_url (_client self) "get_object"
             (get_object_params self filename) (upload_expiration self) with
     | Return presigned_url =>
         Return {| download_link := rewritten presigned_url (external_url self);
                   dl_filename := filename;
                   dl_expires_in := upload_expiration self |}
     | Raise e => Raise (domain_error "Failed to generate download URL: " e)
     end).
Proof.
  unfold get_file, get_file_try, Eff.try_except, Eff.bind, Eff.call, Eff.ret, pure.
  destruct (generate_presigned_url _ _ _ _) as [u|e].
  - now rewrite replace_url_endpoint_rewritten.
  - now rewrite wrap_errors_eq.
Qed.

Lemma get_file_list_eq (self : FileService) :
  get_file_list self
  = ([call_list_objects (_client self) (bucket_name self)],
     match list_objects (_client self) (bucket_name self) with
     | Return response =>
         let files := default (VList []) (response !! "Contents") in
         match py_len files with
         | Return _ => Return files
         | Raise e => Raise (domain_error "Failed to list files: " e)
         end
     | Raise e => Raise (domain_error "Failed to list files: " e)
     end).
Proof.
  unfold get_file_list, get_file_list_try, Eff.try_except, Eff.bind, Eff.call,
    Eff.ret, pure.
  destruct (list_objects _ _) as [response|e].
  - destruct (py_len _) as [n|e]; [reflexivity|]. now rewrite wrap_errors_eq.
  - now rewrite wrap_errors_eq.
Qed.

(** C2, as the code has it: a non-empty content type is pinned in the
    form fields and in a starts-with condition; with no content type, or an
    empty one, the fields and the conditions are passed as [None]. The
    request so built is the one call the operation makes. *)
Theorem upload_request_content_type (self : FileService) (filename : string)
    (content_type : option string) :
  let req := presigned_post_args self filename content_type in
  match content_type with
  | Some v =>
      if String.eqb v ""
      then Fields req = None /\ Conditions req = None
      else Fields req = Some {["Content-Type" := v]}
           /\ Conditions req = Some [["starts-with"; "$Content-Type"; v]]
  | None => Fields req = None /\ Conditions req = None
  end
  /\ Eff.trace (get_upload_link self filename content_type)
     = [call_generate_presigned_post (_client self) req].
Proof.
  cbv zeta. split.
  - unfold presigned_post_args. destruct content_type as [v|]; simpl.
    + destruct (String.eqb v ""); simpl; split; reflexivity.
    + split; reflexivity.
  - now rewrite get_upload_link_eq.
Qed.

(** C4: the upload grant is asked of the backend with the configured
    upload expiration and reports it as [expires_in]; the download grant
    uses the same setting for both. *)
Theorem expires_in_is_upload_expiration (self : FileService) (filename : string)
    (content_type : option string) :
  (exists req,
      Eff.trace (get_upload_link self filename content_type)
      = [call_generate_presigned_post (_client self) req]
      /\ ExpiresIn req = upload_expiration self
      /\ forall pp, generate_presigned_post (_client self) req = Return pp ->
           exists r, Eff.result (get_upload_link self filename content_type) = Return r
                     /\ ul_expires_in r = upload_expiration self)
  /\ Eff.trace (get_file self filename)
     = [call_generate_presigned_url (_client self) "get_object"
          (get_object_params self filename) (upload_expiration self)]
  /\ (forall presigned_url,
        generate_presigned_url (_client self) "get_object"
          (get_object_params self filename) (upload_expiration self)
        = Return presigned_url ->
        exists r, Eff.result (get_file self filename) = Return r
                  /\ dl_expires_in r = upload_expiration self)
  /\ (forall settings p,
        upload_expiration (fst (__init__ settings p))
        = s3_upload_expiration settings).
Proof.
  split; [|split; [|split]].
  - exists (presigned_post_args self filename content_type).
    rewrite get_upload_link_eq. split; [reflexivity|]. split; [reflexivity|].
    intros pp Hpp. unfold Eff.result. simpl. rewrite Hpp. eauto.
  - now rewrite get_file_eq.
  - intros u Hu. rewrite get_file_eq. unfold Eff.result. simpl. rewrite Hu. eauto.
  - intros settings p. reflexivity.
Qed.

(** C6: when the backend's response has no [Contents] entry, listing
    returns the empty list, and the endpoint answers 200 with it. *)
Theorem get_file_list_empty_bucket (self : FileService)
    (response : gmap string resp_val) :
  list_objects (_client self) (bucket_name self) = Return response ->
  response !! "Contents" = None ->
  get_file_list self
  = ([call_list_objects (_client self) (bucket_name self)], Return (VList []))
  /\ Eff.result (importer.get_file_list self) = Return (VList [])
  /\ app.respond app.body_list (Eff.result (importer.get_file_list self))
     = Return {| app.status := 200; app.body := app.body_list (VList []) |}.
Proof.
  intros Hresp Hnone.
  assert (E : get_file_list self
              = ([call_list_objects (_client self) (bucket_name self)],
                 Return (VList []))).
  { rewrite get_file_list_eq, Hresp. simpl. now rewrite Hnone. }
  split; [exact E|].
  unfold importer.get_file_list. rewrite E. simpl. split; reflexivity.
Qed.

Lemma domain_error_Exception (prefix : string) (e : exn) :
  is_Exception e = true ->
  domain_error prefix e = FileServiceError (error_message prefix e) e.
Proof.
  intros He. unfold domain_error, error_message. rewrite He.
  now destruct (is_ClientError e).
Qed.

Lemma domain_error_raises_only {A} (prefix : string) (e : exn) :
  raises_only is_FileServiceError (@Raise A (domain_error prefix e)).
Proof.
  unfold raises_only, domain_error.
  destruct (is_ClientError e); [now left|].
  destruct (is_Exception e) eqn:E; [now left|now right].
Qed.

(** What an endpoint makes of the service's outcome. *)
Lemma to_http_exception_eq {A} (fallback : string) (tr : list s3_call)
    (o : outcome A) :
  Eff.try_except (tr, o) (importer.to_http_exception fallback)
  = (tr,
     match o with
     | Return a => Return a
     | Raise e =>
         if is_FileServiceError e
         then Raise (HTTPException 500 (str_exn e) e)
         else if is_Exception e
         then Raise (HTTPException 500 fallback e)
         else Raise e
     end).
Proof.
  unfold Eff.try_except, importer.to_http_exception, Eff.raise,
    importer.HTTP_500_INTERNAL_SERVER_ERROR.
  destruct o as [a|e]; [reflexivity|].
  destruct (is_FileServiceError e); simpl; [now rewrite app_nil_r|].
  destruct (is_Exception e); simpl; now rewrite app_nil_r.
Qed.

Lemma endpoint_raises_only {A} (fallback : string) (tr : list s3_call)
    (o : outcome A) :
  raises_only is_HTTP_500
    (Eff.result (Eff.try_except (tr, o) (importer.to_http_exception fallback))).
Proof.
  rewrite to_http_exception_eq. unfold Eff.result, raises_only. simpl.
  destruct o as [a|e]; [exact I|].
  destruct (is_FileServiceError e); [now left|].
  destruct (is_Exception e) eqn:E; [now left|now right].
Qed.

(** C1: when the backend call of an operation raises a [ClientError] or
    any other [Exception], the operation raises a [FileServiceError] raised
    from it, the endpoint raises a 500 [HTTPException] with that message,
    and the response is a 500 whose body has the [detail] field. Whatever
    the backend does, no [Exception] other than [FileServiceError] leaves
    an operation, and none other than a 500 [HTTPException] an endpoint. *)
Theorem backend_failure_becomes_http_500 (self : FileService)
    (filename : string) (content_type : option string) (e : exn) :
  is_Exception e = true ->
  (generate_presigned_post (_client self)
     (presigned_post_args self filename content_type) = Raise e ->
   let msg := error_message "Failed to generate upload URL: " e in
   Eff.result (get_upload_link self filename content_type)
   = Raise (FileServiceError msg e)
   /\ Eff.result (importer.get_upload_link filename content_type self)
      = Raise (HTTPException 500 msg (FileServiceError msg e))
   /\ app.respond app.body_upload
        (Eff.result (importer.get_upload_link filename content_type self))
      = Return (error_response msg))
  /\ (generate_presigned_url (_client self) "get_object"
        (get_object_params self filename) (upload_expiration self) = Raise e ->
      let msg := error_message "Failed to generate download URL: " e in
      Eff.result (get_file self filename) = Raise (FileServiceError msg e)
      /\ Eff.result (importer.get_file filename self)
         = Raise (HTTPException 500 msg (FileServiceError msg e))
      /\ app.respond app.body_download
           (Eff.result (importer.get_file filename self))
         = Return (error_response msg))
  /\ (list_objects (_client self) (bucket_name self) = Raise e ->
      let msg := error_message "Failed to list files: " e in
      Eff.result (get_file_list self) = Raise (FileServiceError msg e)
      /\ Eff.result (importer.get_file_list self)
         = Raise (HTTPException 500 msg (FileServiceError msg e))
      /\ app.respond app.body_list (Eff.result (importer.get_file_list self))
         = Return (error_response msg))
  /\ (raises_only is_FileServiceError
        (Eff.result (get_upload_link self filename content_type))
      /\ raises_only is_FileServiceError (Eff.result (get_file self filename))
      /\ raises_only is_FileServiceError (Eff.result (get_file_list self)))
  /\ (raises_only is_HTTP_500
        (Eff.result (importer.get_upload_link filename content_type self))
      /\ raises_only is_HTTP_500 (Eff.result (importer.get_file filename self))
      /\ raises_only is_HTTP_500 (Eff.result (importer.get_file_list self))).
Proof.
  intros He.
  split; [|split; [|split; [|split]]].
  - intros Hb. cbv zeta.
    unfold importer.get_upload_link.
    rewrite get_upload_link_eq. cbv zeta. rewrite Hb.
    rewrite to_http_exception_eq, (domain_error_Exception _ _ He).
    repeat split.
  - intros Hb. cbv zeta.
    unfold importer.get_file.
    rewrite get_file_eq, Hb.
    rewrite to_http_exception_eq, (domain_error_Exception _ _ He).
    repeat split.
  - intros Hb. cbv zeta.
    unfold importer.get_file_list.
    rewrite get_file_list_eq, Hb.
    rewrite to_http_exception_eq, (domain_error_Exception _ _ He).
    repeat split.
  - rewrite get_upload_link_eq, get_file_eq, get_file_list_eq.
    unfold Eff.result. cbn [snd]. repeat split.
    + destruct (generate_presigned_post _ _); [exact I|].
      apply (@domain_error_raises_only unit).
    + destruct (generate_presigned_url _ _ _ _); [exact I|].
      apply (@domain_error_raises_only unit).
    + destruct (list_objects _ _); [|apply (@domain_error_raises_only unit)].
      cbv zeta. destruct (py_len _); [exact I|].
      apply (@domain_error_raises_only unit).
  - unfold importer.get_upload_link, importer.get_file, importer.get_file_list.
    repeat split.
    + destruct (get_upload_link self filename content_type) as [tr o].
      apply endpoint_raises_only.
    + destruct (get_file self filename) as [tr o]. apply endpoint_raises_only.
    + destruct (get_file_list self) as [tr o]. apply endpoint_raises_only.
Qed.

End StorageOperations.

(** An empty content type is supplied, and nothing is pinned: the fields
    and the conditions go to the backend as [None]. *)
Lemma empty_content_type_not_pinned :
  let req := file_service.presigned_post_args samples.service "report.csv" (Some "") in
  Eff.trace
    (file_service.get_upload_link (backend := samples.working_backend)
       samples.service "report.csv" (Some ""))
  = [call_generate_presigned_post (file_service._client samples.service) req]
  /\ Fields req = None
  /\ Conditions req = None
  /\ Fields req <> Some {["Content-Type" := ""]}
  /\ Conditions req <> Some [["starts-with"; "$Content-Type"; ""]].
Proof.
  cbv zeta. split; [reflexivity|].
  split; [reflexivity|]. split; [reflexivity|]. split; discriminate.
Qed.

Lemma backend_failure_becomes_http_500_witness :
  is_Exception samples.no_such_bucket = true
  /\ list_objects (S3Backend := samples.failing_backend samples.no_such_bucket)
       (file_service._client samples.service)
       (file_service.bucket_name samples.service)
     = Raise samples.no_such_bucket
  /\ app.respond app.body_list
       (Eff.result
          (importer.get_file_list
             (backend := samples.failing_backend samples.no_such_bucket)
             samples.service))
     = Return (error_response
                 "Failed to list files: An error occurred (NoSuchBucket) when calling the ListObjects operation").
Proof.
  split; [reflexivity|]. split; [reflexivity|].
  exact (proj2 (proj2
    (proj1 (proj2 (proj2
      (backend_failure_becomes_http_500
         (backend := samples.failing_backend samples.no_such_bucket)
         samples.service "report.csv" None samples.no_such_bucket eq_refl)))
      eq_refl))).
Defined.

Lemma expires_in_is_upload_expiration_witness :
  exists r,
    Eff.result
      (file_service.get_file (backend := samples.working_backend)
         samples.service "report.csv") = Return r
    /\ file_service.dl_expires_in r = 60.
Proof.
  exact (proj1 (proj2 (proj2
    (expires_in_is_upload_expiration (backend := samples.working_backend)
       samples.service "report.csv" None))) _ eq_refl).
Defined.

Lemma get_file_list_empty_bucket_witness :
  list_objects (S3Backend := samples.working_backend)
    (file_service._client samples.service)
    (file_service.bucket_name samples.service)
  = Return (<["Name" := VStr "test-bucket"]> ∅)
  /\ (<["Name" := VStr "test-bucket"]> ∅ : gmap string resp_val) !! "Contents" = None
  /\ Eff.result (importer.get_file_list (backend := samples.working_backend)
                   samples.service)
     = Return (VList []).
Proof.
  split; [reflexivity|]. split; [reflexivity|].
  exact (proj1 (proj2
    (get_file_list_empty_bucket (backend := samples.working_backend)
       samples.service (<["Name" := VStr "test-bucket"]> ∅) eq_refl eq_refl))).
Defined.

(** ** The wrapper and its client *)

Section Wrapper.
Context {urllib : UrlLib} {backend : S3Backend}.

Import file_service.

Lemma init_eq (settings : Settings) (p : process) :
  let self := fst (__init__ settings p) in
  __init__ settings p
  = (self, {| clients := clients p ++ [_client self];
              services := services p ++ [self] |})
  /\ client_id (_client self) = length (clients p).
Proof. cbv zeta. unfold __init__, boto3_client. simpl. split; reflexivity. Qed.

Lemma operations_use_own_client (service : FileService) (req : app.request) :
  Forall (fun c => call_client c = _client service)
    (match req with
     | app.GET_importer_file_upload filename content_type =>
         Eff.trace (importer.get_upload_link filename content_type service)
     | app.GET_importer_file filename =>
         Eff.trace (importer.get_file filename service)
     | app.GET_importer_file_list =>
         Eff.trace (importer.get_file_list service)
     end).
Proof.
  destruct req as [filename content_type|filename|];
    unfold importer.get_upload_link, importer.get_file, importer.get_file_list.
  - rewrite get_upload_link_eq, to_http_exception_eq. cbn. repeat constructor.
  - rewrite get_file_eq, to_http_exception_eq. cbn. repeat constructor.
  - rewrite get_file_list_eq, to_http_exception_eq. cbn. repeat constructor.
Qed.

(** Serving a request leaves the process as the construction of the
    wrapper left it: no operation creates or changes an object. *)
Lemma serve_process (settings : Settings) (p : process) (req : app.request) :
  snd (app.serve settings p req) = snd (__init__ settings p)
  /\ app.wrapper (fst (app.serve settings p req)) = fst (__init__ settings p).
Proof.
  unfold app.serve, importer.get_file_service.
  destruct (__init__ settings p) as [self p1].
  destruct req as [filename content_type|filename|].
  - destruct (importer.get_upload_link filename content_type self) as [tr o].
    split; reflexivity.
  - destruct (importer.get_file filename self) as [tr o]. split; reflexivity.
  - destruct (importer.get_file_list self) as [tr o]. split; reflexivity.
Qed.

(** Requests served in a row: one more wrapper and one more client per
    request, after the ones that were there. *)
Lemma serve_all_grows (settings : Settings) (reqs : list app.request) (p : process) :
  let run := app.serve_all settings p reqs in
  length (fst run) = length reqs
  /\ (exists new, clients (snd run) = clients p ++ new
                  /\ length new = length reqs)
  /\ (exists new, services (snd run) = services p ++ new
                  /\ length new = length reqs).
Proof.
  cbv zeta. revert p. induction reqs as [|req reqs IH]; intros p; simpl.
  - split; [reflexivity|]. split; exists []; now rewrite app_nil_r.
  - destruct (serve_process settings p req) as [Hp _].
    destruct (app.serve settings p req) as [s p1]. cbn [snd] in Hp. subst p1.
    destruct (init_eq settings p) as [Hinit _]. cbv zeta in Hinit.
    set (self := fst (__init__ settings p)) in *.
    assert (Hq : clients (snd (__init__ settings p)) = clients p ++ [_client self]
                 /\ services (snd (__init__ settings p)) = services p ++ [self])
      by now rewrite Hinit.
    destruct Hq as [Hqc Hqs].
    specialize (IH (snd (__init__ settings p))).
    destruct (app.serve_all settings (snd (__init__ settings p)) reqs) as [ss p2].
    cbn [fst snd] in IH |- *.
    destruct IH as (Hl & (nc & Hc & Hlc) & (ns & Hs & Hls)).
    rewrite Hqc in Hc. rewrite Hqs in Hs.
    split; [simpl; now rewrite Hl|]. split.
    + exists (_client self :: nc).
      rewrite Hc, <- app_assoc. simpl. now rewrite Hlc.
    + exists (self :: ns).
      rewrite Hs, <- app_assoc. simpl. now rewrite Hls.
Qed.

(** Serving a request constructs a wrapper, which creates exactly one new
    client and keeps it; the wrapper holds the settings' bucket, expiration
    and external URL; every backend call of the request goes to that
    client; and the wrappers and clients that existed before are left as
    they were. *)
Theorem serve_constructs_one_wrapper_one_client (settings : Settings)
    (p : process) (req : app.request) :
  let s := fst (app.serve settings p req) in
  let p' := snd (app.serve settings p req) in
  let self := app.wrapper s in
  clients p' = clients p ++ [_client self]
  /\ services p' = services p ++ [self]
  /\ client_id (_client self) = length (clients p)
  /\ bucket_name self = s3_bucket settings
  /\ upload_expiration self = s3_upload_expiration settings
  /\ external_url self
     = (if String.eqb (s3_external_url settings) ""
        then None else Some (s3_external_url settings))
  /\ Forall (fun c => call_client c = _client self) (app.backend_calls s).
Proof.
  cbv zeta. unfold app.serve, importer.get_file_service.
  destruct (init_eq settings p) as [Hinit Hid]. cbv zeta in Hinit, Hid.
  rewrite Hinit.
  set (self := fst (__init__ settings p)) in *.
  pose proof (operations_use_own_client self req) as Hcalls.
  assert (Hw : forall tr (resp : outcome app.http_response),
             app.wrapper {| app.wrapper := self; app.backend_calls := tr;
                            app.response := resp |} = self) by reflexivity.
  destruct req as [filename content_type|filename|].
  - destruct (importer.get_upload_link filename content_type self) as [tr o].
    cbn. repeat split; try exact Hid; try exact Hcalls.
    unfold self, __init__, boto3_client. simpl.
    now destruct (String.eqb (s3_external_url settings) "").
  - destruct (importer.get_file filename self) as [tr o].
    cbn. repeat split; try exact Hid; try exact Hcalls.
    unfold self, __init__, boto3_client. simpl.
    now destruct (String.eqb (s3_external_url settings) "").
  - destruct (importer.get_file_list self) as [tr o].
    cbn. repeat split; try exact Hid; try exact Hcalls.
    unfold self, __init__, boto3_client. simpl.
    now destruct (String.eqb (s3_external_url settings) "").
Qed.

End Wrapper.

(** C9 fails in the code. The class is written to keep a single client
    for reuse, but the dependency of the endpoints constructs a wrapper on
    every call: two requests served one after the other by a fresh process
    are served by two wrappers with two clients, and the process then holds
    two of each. *)
Lemma two_requests_two_wrappers :
  let run :=
    app.serve_all (backend := samples.working_backend) samples.settings
      file_service.fresh_process
      [app.GET_importer_file_list; app.GET_importer_file "report.csv"] in
  map (fun s => client_id (file_service._client (app.wrapper s))) (fst run)
  = [0%nat; 1%nat]
  /\ length (file_service.clients (snd run)) = 2%nat
  /\ length (file_service.services (snd run)) = 2%nat
  /\ ~ served_by_one_wrapper (fst run).
Proof.
  cbv zeta.
  set (run := app.serve_all _ _ _).
  assert (Hids : map (fun s => client_id (file_service._client (app.wrapper s)))
                   (fst run) = [0%nat; 1%nat]) by (vm_compute; reflexivity).
  split; [exact Hids|].
  split; [vm_compute; reflexivity|]. split; [vm_compute; reflexivity|].
  intros Hsame.
  destruct (fst run) as [|s1 [|s2 [|s3 ss]]]; try discriminate Hids.
  injection Hids as H1 H2.
  specialize (Hsame s1 s2 (or_introl eq_refl) (or_intror (or_introl eq_refl))).
  rewrite Hsame in H1. congruence.
Qed.

(** ** The git workflow helper *)

Section GitWorkflow.
Context {env : git.GitEnv}.

(** C10: with no repository, [commit_repo] makes no git call and returns
    the fixed failure text. *)
Theorem commit_repo_without_repository (file_to_add commit_message : string) :
  git.commit_repo None file_to_add commit_message
  = ([], Return "Commit Failed: Repository not cloned.")
  /\ Eff.trace (git.commit_repo None file_to_add commit_message) = []
  /\ Eff.result (git.commit_repo None file_to_add commit_message)
     = Return "Commit Failed: Repository not cloned.".
Proof. repeat split. Qed.

(** With a repository, [commit_repo] turns every [Exception] of the add,
    the commit and the push into a returned text. *)
Lemma commit_repo_returns (repo : git.Repo) (file_to_add commit_message : string) :
  (forall e, git.index_add repo [file_to_add] = Raise e -> is_Exception e = true) ->
  (forall e, git.index_commit repo commit_message = Raise e -> is_Exception e = true) ->
  (forall e, git.push repo "HEAD:main" = Raise e -> is_Exception e = true) ->
  exists msg,
    Eff.result (git.commit_repo (Some repo) file_to_add commit_message) = Return msg.
Proof.
  intros Ha Hc Hp.
  unfold git.commit_repo, Eff.try_except, Eff.bind, Eff.call, Eff.ret, Eff.raise,
    Eff.result.
  destruct (git.index_add repo [file_to_add]) as [[]|e] eqn:Ea.
  - destruct (git.index_commit repo commit_message) as [[]|e] eqn:Ec.
    + destruct (git.push repo "HEAD:main") as [push_info|e] eqn:Ep.
      * destruct (git.push_failed push_info); simpl; eauto.
      * simpl. rewrite (Hp _ eq_refl). simpl. eauto.
    + simpl. rewrite (Hc _ eq_refl). simpl. eauto.
  - simpl. rewrite (Ha _ eq_refl). simpl. eauto.
Qed.

(** When the clone succeeds or fails with a [GitCommandError], and the
    other calls raise nothing but [Exception]s, the workflow returns a
    text. *)
Lemma run_workflow_returns (repo_url csv_file_path clone_dir : string) :
  match git.clone_from repo_url clone_dir with
  | Return _ => True
  | Raise e => is_GitCommandError e = true
  end ->
  (forall repo files e, git.index_add repo files = Raise e -> is_Exception e = true) ->
  (forall repo m e, git.index_commit repo m = Raise e -> is_Exception e = true) ->
  (forall repo r e, git.push repo r = Raise e -> is_Exception e = true) ->
  (forall e, git.rmtree clone_dir = Raise e -> is_Exception e = true) ->
  exists msg,
    Eff.result (git.run_workflow repo_url csv_file_path clone_dir) = Return msg.
Proof.
  intros Hclone Ha Hc Hp Hr.
  unfold git.run_workflow, git.clone_repo, Eff.try_then, Eff.try_except at 1,
    Eff.call, Eff.raise.
  destruct (git.clone_from repo_url clone_dir) as [repo|e].
  - destruct (commit_repo_returns repo (git.path_name csv_file_path)
                ("Add " +:+ git.path_name csv_file_path)
                (Ha _ _) (Hc _ _) (Hp _ _)) as [msg Hmsg].
    unfold Eff.bind, Eff.result in *.
    destruct (git.commit_repo _ _ _) as [tr o]. simpl in Hmsg. subst o.
    unfold Eff.try_except, Eff.call, Eff.ret, Eff.raise.
    destruct (git.rmtree clone_dir) as [[]|e] eqn:Er; simpl; eauto.
    rewrite (Hr _ eq_refl). simpl. eauto.
  - rewrite Hclone. simpl. eauto.
Qed.

(** A clone that raises is turned into the failure text only for a
    [GitCommandError], which [clone_repo] takes, or a
    [RepositoryCloneError], which [run_workflow] takes; any other exception
    goes through both. *)
Lemma run_workflow_clone_raises (repo_url csv_file_path clone_dir : string)
    (e : exn) :
  git.clone_from repo_url clone_dir = Raise e ->
  git.run_workflow repo_url csv_file_path clone_dir
  = ([git.call_clone_from repo_url clone_dir],
     if is_GitCommandError e || is_RepositoryCloneError e
     then Return "Workflow Failed at: Repository Cloning."
     else Raise e).
Proof.
  intros Hc.
  unfold git.run_workflow, git.clone_repo, Eff.try_then, Eff.try_except,
    Eff.call, Eff.raise, Eff.ret.
  rewrite Hc. destruct e; reflexivity.
Qed.

End GitWorkflow.

(** C8 on a clone that fails with an exception other than
    [GitCommandError]: GitPython refuses the [ext::] transport with an
    [UnsafeProtocolError] before it runs git; [clone_repo] lets it through,
    and so does [run_workflow]. The other failure modes do come back as
    texts. *)
Theorem run_workflow_clone_exception_escapes :
  let unsafe := PyException "UnsafeProtocolError"
                  "The `ext` protocol looks suspicious, use `allow_unsafe_protocols=True` to allow it." in
  git.run_workflow (env := samples.clone_raises unsafe)
    "ext::sh -c true" "data/report.csv" "temp"
  = ([git.call_clone_from "ext::sh -c true" "temp"], Raise unsafe)
  /\ Eff.result
       (git.run_workflow (env := samples.clone_raises (GitCommandError "exit code(128)"))
          "https://example.org/missing.git" "data/report.csv" "temp")
     = Return "Workflow Failed at: Repository Cloning."
  /\ Eff.result
       (git.run_workflow (env := samples.commit_and_cleanup_raise)
          "https://example.org/repo.git" "data/report.csv" "temp")
     = Return "An error occurred during commit/push: pre-commit hook failed".
Proof. cbv zeta. repeat split. Qed.

(** * Further properties *)

(** ** The storage operations, through the endpoints *)

Section StorageFurther.
Context {urllib : UrlLib} {backend : S3Backend}.

Import file_service.

(** X1: an endpoint makes exactly one backend call, on the wrapper's
    client, for the wrapper's bucket and the requested key, whether the
    call succeeds or fails: nothing is retried. *)
Theorem endpoints_call_backend_once (self : FileService) (filename : string)
    (content_type : option string) :
  (exists req,
      Eff.trace (importer.get_upload_link filename content_type self)
      = [call_generate_presigned_post (_client self) req]
      /\ Bucket req = bucket_name self /\ Key req = filename)
  /\ (exists prm,
        Eff.trace (importer.get_file filename self)
        = [call_generate_presigned_url (_client self) "get_object" prm
             (upload_expiration self)]
        /\ prm !! "Bucket" = Some (bucket_name self)
        /\ prm !! "Key" = Some filename
        /\ dom prm = {["Bucket"; "Key"]})
  /\ Eff.trace (importer.get_file_list self)
     = [call_list_objects (_client self) (bucket_name self)].
Proof.
  unfold importer.get_upload_link, importer.get_file, importer.get_file_list.
  rewrite get_upload_link_eq, get_file_eq, get_file_list_eq.
  rewrite !to_http_exception_eq. cbn [Eff.trace fst].
  split; [|split; [|reflexivity]].
  - eexists. split; [reflexivity|]. split; reflexivity.
  - exists (get_object_params self filename). split; [reflexivity|].
    unfold get_object_params. split; [|split].
    + apply lookup_insert_eq.
    + rewrite lookup_insert_ne by discriminate. apply lookup_singleton_eq.
    + rewrite dom_insert_L, dom_singleton_L. set_solver.
Qed.

(** X2: an exception that does not derive from [Exception] (a
    [KeyboardInterrupt], a cancellation) is neither wrapped nor turned into
    a response: the operation and the endpoint raise it as it is. *)
Theorem base_exception_passes_through (self : FileService) (filename : string)
    (content_type : option string) (e : exn) :
  is_Exception e = false ->
  (generate_presigned_post (_client self)
     (presigned_post_args self filename content_type) = Raise e ->
   Eff.result (get_upload_link self filename content_type) = Raise e
   /\ app.respond app.body_upload
        (Eff.result (importer.get_upload_link filename content_type self))
      = Raise e)
  /\ (generate_presigned_url (_client self) "get_object"
        (get_object_params self filename) (upload_expiration self) = Raise e ->
      Eff.result (get_file self filename) = Raise e
      /\ app.respond app.body_download
           (Eff.result (importer.get_file filename self))
         = Raise e)
  /\ (list_objects (_client self) (bucket_name self) = Raise e ->
      Eff.result (get_file_list self) = Raise e
      /\ app.respond app.body_list (Eff.result (importer.get_file_list self))
         = Raise e).
Proof.
  intros He.
  assert (Hd : forall prefix, domain_error prefix e = e).
  { intros prefix. unfold domain_error. rewrite He.
    destruct e; try reflexivity; discriminate. }
  assert (Hf : is_FileServiceError e = false) by (destruct e; try reflexivity; discriminate).
  assert (Hh : forall B (f : B -> app.json_body), app.respond f (Raise e) = Raise e).
  { intros B f. destruct e; try reflexivity; discriminate. }
  unfold importer.get_upload_link, importer.get_file, importer.get_file_list.
  rewrite get_upload_link_eq, get_file_eq, get_file_list_eq.
  rewrite !to_http_exception_eq. cbn [Eff.result snd]. cbv zeta.
  split; [|split]; intros Hb; rewrite Hb, Hd, Hf, He; split; auto.
Qed.

(** X3: when the backend answers, the endpoint's 200 response carries the
    backend's form fields as they came, the requested file name, the
    configured expiration, and the backend's URL after the rewriter. *)
Theorem upload_grant_passes_backend_answer (self : FileService)
    (filename : string) (content_type : option string) (pp : presigned_post) :
  generate_presigned_post (_client self)
    (presigned_post_args self filename content_type) = Return pp ->
  app.respond app.body_upload
    (Eff.result (importer.get_upload_link filename content_type self))
  = Return {| app.status := 200;
              app.body :=
                app.body_upload
                  {| upload_link := rewritten (pp_url pp) (external_url self);
                     fields := pp_fields pp;
                     ul_filename := filename;
                     ul_expires_in := upload_expiration self |} |}
  /\ replace_url_endpoint (pp_url pp) (external_url self)
     = Return (rewritten (pp_url pp) (external_url self)).
Proof.
  intros Hb. unfold importer.get_upload_link.
  rewrite get_upload_link_eq. cbv zeta. rewrite Hb, to_http_exception_eq.
  split; [reflexivity|]. apply replace_url_endpoint_rewritten.
Qed.

(** X4: a wrapper constructed from settings with no external URL hands out
    the backend's URLs untouched, for uploads and for downloads. *)
Theorem links_unchanged_without_external_url (settings : Settings) (p : process)
    (filename : string) (content_type : option string) :
  s3_external_url settings = "" ->
  let self := fst (__init__ settings p) in
  (forall pp,
      generate_presigned_post (_client self)
        (presigned_post_args self filename content_type) = Return pp ->
      exists r,
        Eff.result (importer.get_upload_link filename content_type self) = Return r
        /\ upload_link r = pp_url pp)
  /\ (forall presigned_url,
        generate_presigned_url (_client self) "get_object"
          (get_object_params self filename) (upload_expiration self)
        = Return presigned_url ->
        exists r,
          Eff.result (importer.get_file filename self) = Return r
          /\ download_link r = presigned_url).
Proof.
  intros Hext. cbv zeta.
  set (self := fst (__init__ settings p)).
  assert (Hnone : external_url self = None).
  { unfold self, __init__, boto3_client. simpl. now rewrite Hext. }
  unfold importer.get_upload_link, importer.get_file.
  rewrite get_upload_link_eq, get_file_eq, !to_http_exception_eq.
  cbn [Eff.result snd]. cbv zeta. rewrite Hnone.
  split.
  - intros pp Hb. rewrite Hb. eexists. split; reflexivity.
  - intros u Hb. rewrite Hb. eexists. split; reflexivity.
Qed.

(** X6: the listing hands back the backend's [Contents] list as it is,
    entries and order; a [Contents] value that has no length (a [None], a
    number) is an unexpected error. *)
Theorem get_file_list_passes_contents (self : FileService)
    (response : gmap string resp_val) :
  list_objects (_client self) (bucket_name self) = Return response ->
  match response !! "Contents" with
  | Some (VList l) =>
      Eff.result (importer.get_file_list self) = Return (VList l)
  | Some (VStr s) =>
      Eff.result (importer.get_file_list self) = Return (VStr s)
  | Some v =>
      exists cause,
        py_len v = Raise cause
        /\ Eff.result (get_file_list self)
           = Raise (FileServiceError ("Unexpected error: " +:+ str_exn cause) cause)
        /\ app.respond app.body_list (Eff.result (importer.get_file_list self))
           = Return (error_response ("Unexpected error: " +:+ str_exn cause))
  | None => Eff.result (importer.get_file_list self) = Return (VList [])
  end.
Proof.
  intros Hb. unfold importer.get_file_list.
  rewrite get_file_list_eq, Hb, to_http_exception_eq. cbv zeta.
  cbn [Eff.result snd].
  destruct (response !! "Contents") as [[l|s|z|b|]|]; try reflexivity;
    (eexists; split; [reflexivity|]; split; reflexivity).
Qed.

End StorageFurther.

(** ** The URL rewriter, further *)

Section RewriterFurther.
Context {urllib : UrlLib}.

Import file_service.

(** X8: the result does not depend on the scheme and the authority of the
    input: two URLs that parse to the same path, params, query and
    fragment are rewritten to the same text, so nothing of the internal
    endpoint is left in a rewritten link. *)
Theorem replace_url_endpoint_forgets_internal_endpoint
    (url1 url2 ext : string) (p1 p2 e : ParseResult) :
  ext <> "" ->
  urlparse url1 = Return p1 -> urlparse url2 = Return p2 ->
  path p1 = path p2 -> params p1 = params p2 ->
  query p1 = query p2 -> fragment p1 = fragment p2 ->
  urlparse ext = Return e ->
  replace_url_endpoint url1 (Some ext) = replace_url_endpoint url2 (Some ext).
Proof.
  intros Hne H1 H2 Hp Hm Hq Hf He.
  pose proof (replace_url_endpoint_spec url1 ext Hne) as S1.
  pose proof (replace_url_endpoint_spec url2 ext Hne) as S2.
  rewrite H1, He in S1. rewrite H2, He in S2.
  rewrite S1, S2, Hp, Hm, Hq, Hf. reflexivity.
Qed.

End RewriterFurther.

Section RewriterCPython.
Context {checks : HostChecks}.

Import file_service.

(** X7: rewriting is idempotent: a URL with an authority, rewritten under
    an override with an authority whose scheme agrees on [;parameters], is
    left as it is by a second rewriting under the same override. *)
Theorem replace_url_endpoint_idempotent (url ext r : string)
    (p e : ParseResult) :
  ext <> "" ->
  urlparse url = Return p -> urlparse ext = Return e ->
  netloc p <> "" -> netloc e <> "" ->
  urllib_parse.in_list (scheme e) urllib_parse.uses_params
  = urllib_parse.in_list (scheme p) urllib_parse.uses_params ->
  replace_url_endpoint url (Some ext) = Return r ->
  replace_url_endpoint r (Some ext) = Return r.
Proof.
  intros Hne Hp He Hnp Hnx Hflag Hr.
  pose proof (replace_url_endpoint_spec url ext Hne) as S1.
  rewrite Hp, He in S1. rewrite S1 in Hr. injection Hr as Hr. subst r.
  set (new_parsed := {| scheme := scheme e; netloc := netloc e; path := path p;
                        params := params p; query := query p;
                        fragment := fragment p |}).
  assert (Hrt : urlparse (urlunparse new_parsed) = Return new_parsed)
    by exact (urlparse_urlunparse_replaced url ext p e Hp He Hnp Hnx Hflag).
  pose proof (replace_url_endpoint_spec (urlunparse new_parsed) ext Hne) as S2.
  rewrite Hrt, He in S2. exact S2.
Qed.

End RewriterCPython.

Section DownloadLink.
Context {checks : HostChecks} {backend : S3Backend}.

Import file_service.

(** X5: with an external URL configured, the download link the endpoint
    returns parses to the external URL's scheme and authority and to the
    path, params, query and fragment of the URL the backend signed. *)
Theorem download_link_carries_external_endpoint (self : FileService)
    (filename presigned_url ext : string) (parsed external_parsed : ParseResult) :
  external_url self = Some ext -> ext <> "" ->
  generate_presigned_url (_client self) "get_object"
    (get_object_params self filename) (upload_expiration self)
  = Return presigned_url ->
  urlparse presigned_url = Return parsed ->
  urlparse ext = Return external_parsed ->
  netloc parsed <> "" -> netloc external_parsed <> "" ->
  urllib_parse.in_list (scheme external_parsed) urllib_parse.uses_params
  = urllib_parse.in_list (scheme parsed) urllib_parse.uses_params ->
  exists r,
    Eff.result (importer.get_file filename self) = Return r
    /\ urlparse (download_link r)
       = Return {| scheme := scheme external_parsed;
                   netloc := netloc external_parsed;
                   path := path parsed;
                   params := params parsed;
                   query := query parsed;
                   fragment := fragment parsed |}.
Proof.
  intros Hext Hne Hb Hp He Hnp Hnx Hflag.
  unfold importer.get_file.
  rewrite get_file_eq, Hb, to_http_exception_eq. cbn [Eff.result snd].
  eexists. split; [reflexivity|]. cbn [download_link].
  unfold rewritten. rewrite Hext.
  pose proof (replace_url_endpoint_spec presigned_url ext Hne) as S1.
  rewrite Hp, He in S1. rewrite S1.
  exact (urlparse_urlunparse_replaced presigned_url ext _ _ Hp He Hnp Hnx Hflag).
Qed.

End DownloadLink.

(** ** Wrappers and clients over a run of requests *)

Section WrapperFurther.
Context {urllib : UrlLib} {backend : S3Backend}.

Import file_service.

Lemma fresh_process_ids : ids_are_positions fresh_process.
Proof. reflexivity. Qed.




End WrapperFurther.

(** ** The git workflow helper, further *)

Lemma land_error_bit (x : Z) :
  (Z.land x git.PushInfo_ERROR =? 0) = negb (Z.testbit x 10).
Proof.
  unfold git.PushInfo_ERROR. change 1024 with (2 ^ 10).
  destruct (Z.testbit x 10) eqn:Hb; simpl negb.
  - apply Z.eqb_neq. intros H0.
    apply (f_equal (fun z => Z.testbit z 10)) in H0.
    rewrite Z.land_spec, Hb, Z.pow2_bits_true, Z.bits_0 in H0 by lia.
    discriminate.
  - apply Z.eqb_eq. apply Z.bits_inj_0. intros n.
    rewrite Z.land_spec.
    destruct (Z.eq_dec n 10) as [->|Hn].
    + now rewrite Hb.
    + destruct (Z.ltb_spec n 0) as [E|E].
      * now rewrite (Z.testbit_neg_r x n E).
      * rewrite Z.pow2_bits_false by lia. apply andb_false_r.
Qed.

Section GitFurther.
Context {env : git.GitEnv}.

(** X10: [commit_repo] stages, commits and pushes in this order and stops
    at the first step that raises: no commit after a failed add, no push
    after a failed commit; the push goes to [HEAD:main]; and what a step
    raises comes back as a text with the exception's message. *)
Theorem commit_repo_steps (repo : git.Repo) (file_to_add commit_message : string) :
  let add := git.call_index_add repo [file_to_add] in
  let commit := git.call_index_commit repo commit_message in
  let push := git.call_push repo "HEAD:main" in
  let failed (e : exn) : outcome string :=
    if is_Exception e
    then Return ("An error occurred during commit/push: " +:+ str_exn e)
    else Raise e in
  match git.index_add repo [file_to_add] with
  | Raise e =>
      git.commit_repo (Some repo) file_to_add commit_message = ([add], failed e)
  | Return _ =>
      match git.index_commit repo commit_message with
      | Raise e =>
          git.commit_repo (Some repo) file_to_add commit_message
          = ([add; commit], failed e)
      | Return _ =>
          Eff.trace (git.commit_repo (Some repo) file_to_add commit_message)
          = [add; commit; push]
          /\ forall e, git.push repo "HEAD:main" = Raise e ->
               Eff.result (git.commit_repo (Some repo) file_to_add commit_message)
               = failed e
      end
  end.
Proof.
  cbv zeta.
  unfold git.commit_repo, Eff.try_except, Eff.bind, Eff.call, Eff.ret,
    Eff.raise, Eff.trace, Eff.result.
  destruct (git.index_add repo [file_to_add]) as [[]|e].
  - destruct (git.index_commit repo commit_message) as [[]|e].
    + destruct (git.push repo "HEAD:main") as [infos|e].
      * split; [|intros e; discriminate].
        destruct (git.push_failed infos); reflexivity.
      * split; [destruct (is_Exception e); reflexivity|].
        intros e' [= <-]. destruct (is_Exception e); reflexivity.
    + destruct (is_Exception e); reflexivity.
  - destruct (is_Exception e); reflexivity.
Qed.

(** X11: after a push that returns, the outcome is read off bit 10 (the
    error flag) of the first entry only: set, the push is reported as
    failed; clear, or with no entry at all, the commit is reported as
    successful, whatever the later entries say. *)
Theorem commit_repo_push_outcome (repo : git.Repo)
    (file_to_add commit_message : string) (infos : list git.PushInfo) :
  git.index_add repo [file_to_add] = Return tt ->
  git.index_commit repo commit_message = Return tt ->
  git.push repo "HEAD:main" = Return infos ->
  Eff.result (git.commit_repo (Some repo) file_to_add commit_message)
  = Return (match infos with
            | i :: _ =>
                if Z.testbit (git.flags i) 10
                then "Commit Failed during push!"
                else "Commit Successful! Data Imported Successfully!"
            | [] => "Commit Successful! Data Imported Successfully!"
            end).
Proof.
  intros Ha Hc Hp.
  unfold git.commit_repo, Eff.try_except, Eff.bind, Eff.call, Eff.ret,
    Eff.result.
  rewrite Ha, Hc, Hp. unfold git.push_failed.
  destruct infos as [|i rest]; [reflexivity|].
  rewrite land_error_bit, negb_involutive.
  destruct (Z.testbit (git.flags i) 10); reflexivity.
Qed.

(** X12: once the clone has succeeded, the clone directory is removed
    exactly once, after the commit step and whatever that step returned,
    and the workflow returns the commit step's text whether the removal
    succeeded or raised. *)
Theorem run_workflow_cleans_up (repo_url csv_file_path clone_dir : string)
    (repo : git.Repo) (msg : string) :
  git.clone_from repo_url clone_dir = Return repo ->
  (forall e, git.rmtree clone_dir = Raise e -> is_Exception e = true) ->
  let commit :=
    git.commit_repo (Some repo) (git.path_name csv_file_path)
      ("Add " +:+ git.path_name csv_file_path) in
  Eff.result commit = Return msg ->
  git.run_workflow repo_url csv_file_path clone_dir
  = ([git.call_clone_from repo_url clone_dir] ++ Eff.trace commit
       ++ [git.call_rmtree clone_dir],
     Return msg).
Proof.
  intros Hclone Hrm. cbv zeta. intros Hmsg.
  unfold git.run_workflow, git.clone_repo, Eff.try_then, Eff.try_except at 1,
    Eff.call.
  rewrite Hclone. unfold Eff.bind.
  destruct (git.commit_repo _ _ _) as [tr o]. cbn [Eff.result Eff.trace fst snd] in *.
  subst o. unfold Eff.try_except, Eff.call, Eff.ret, Eff.raise.
  destruct (git.rmtree clone_dir) as [[]|e] eqn:Er.
  - cbn. reflexivity.
  - rewrite (Hrm _ eq_refl). cbn. reflexivity.
Qed.

(** X13: when the clone raises a [GitCommandError], the workflow makes no
    other call: nothing is staged, committed or pushed, and the clone
    directory is not removed. *)
Theorem run_workflow_stops_after_failed_clone
    (repo_url csv_file_path clone_dir : string) (e : exn) :
  git.clone_from repo_url clone_dir = Raise e ->
  is_GitCommandError e = true ->
  git.run_workflow repo_url csv_file_path clone_dir
  = ([git.call_clone_from repo_url clone_dir],
     Return "Workflow Failed at: Repository Cloning.")
  /\ ~ In (git.call_rmtree clone_dir)
          (Eff.trace (git.run_workflow repo_url csv_file_path clone_dir)).
Proof.
  intros Hc He.
  assert (E : git.run_workflow repo_url csv_file_path clone_dir
              = ([git.call_clone_from repo_url clone_dir],
                 Return "Workflow Failed at: Repository Cloning.")).
  { unfold git.run_workflow, git.clone_repo, Eff.try_then, Eff.try_except,
      Eff.call, Eff.raise, Eff.ret.
    rewrite Hc, He. reflexivity. }
  split; [exact E|]. rewrite E. cbn. intros [H|[]]. discriminate H.
Qed.

End GitFurther.

(** *** The staged file name *)

Lemma split_slash_nonempty (s : string) : git.split_slash s <> [].
Proof.
  induction s as [|c s IH]; simpl; [discriminate|].
  destruct (Ascii.eqb c "/"); [discriminate|].
  destruct (git.split_slash s); [contradiction|discriminate].
Qed.

Lemma split_slash_no_slash (s : string) :
  urllib_parse.contains "/" s = false -> git.split_slash s = [s].
Proof.
  induction s as [|c s IH]; simpl; [reflexivity|].
  destruct (Ascii.eqb c "/"); simpl; [discriminate|].
  intros Hs. now rewrite (IH Hs).
Qed.

Lemma split_slash_app (dir name : string) :
  git.split_slash (dir +:+ String "/" name)
  = git.split_slash dir ++ git.split_slash name.
Proof.
  induction dir as [|c dir IH].
  - change ("" +:+ String "/" name) with (String "/" name). simpl.
    reflexivity.
  - change (String c dir +:+ String "/" name)
      with (String c (dir +:+ String "/" name)).
    simpl. rewrite IH.
    destruct (Ascii.eqb c "/"); [reflexivity|].
    pose proof (split_slash_nonempty dir) as Hd.
    destruct (git.split_slash dir) as [|w ws]; [contradiction|]. reflexivity.
Qed.

(** X14: the file the workflow stages is the last component of the path it
    is given: for [dir/name], with [name] a plain file name, the add is
    made for [name] alone and the commit message is [Add name], whatever
    the directory. *)
Theorem run_workflow_stages_file_name {env : git.GitEnv}
    (repo_url dir name clone_dir : string) (repo : git.Repo) :
  urllib_parse.contains "/" name = false -> name <> "" -> name <> "." ->
  git.clone_from repo_url clone_dir = Return repo ->
  git.path_name (dir +:+ "/" +:+ name) = name
  /\ git.path_name name = name
  /\ exists rest,
       Eff.trace (git.run_workflow repo_url (dir +:+ "/" +:+ name) clone_dir)
       = git.call_clone_from repo_url clone_dir
         :: git.call_index_add repo [name] :: rest
       /\ (git.index_add repo [name] = Return tt ->
           exists rest', rest = git.call_index_commit repo ("Add " +:+ name) :: rest').
Proof.
  intros Hslash Hne Hdot Hclone.
  assert (Hkeep : (negb (String.eqb name "") && negb (String.eqb name "."))%bool = true).
  { apply andb_true_iff. split; apply negb_true_iff, String.eqb_neq; assumption. }
  assert (Hname : git.path_name name = name).
  { unfold git.path_name. rewrite (split_slash_no_slash _ Hslash).
    cbn [List.filter]. now rewrite Hkeep. }
  assert (Hpath : git.path_name (dir +:+ "/" +:+ name) = name).
  { unfold git.path_name.
    change ("/" +:+ name) with (String "/" name).
    rewrite split_slash_app, List.filter_app, (split_slash_no_slash _ Hslash).
    cbn [List.filter]. rewrite Hkeep. apply List.last_last. }
  split; [exact Hpath|]. split; [exact Hname|].
  unfold git.run_workflow, git.clone_repo, Eff.try_then, Eff.try_except at 1,
    Eff.call.
  rewrite Hclone, Hpath.
  unfold git.commit_repo, Eff.bind, Eff.try_except, Eff.call, Eff.ret, Eff.raise,
    Eff.trace.
  destruct (git.index_add repo [name]) as [[]|e].
  - destruct (git.index_commit repo ("Add " +:+ name)) as [[]|e].
    + destruct (git.push repo "HEAD:main") as [infos|e].
      * destruct (git.push_failed infos);
          destruct (git.rmtree clone_dir) as [[]|e'];
          try destruct (is_Exception e');
          (eexists; split; [reflexivity|]; intros _; eexists; reflexivity).
      * destruct (is_Exception e);
          destruct (git.rmtree clone_dir) as [[]|e'];
          try destruct (is_Exception e');
          (eexists; split; [reflexivity|]; intros _; eexists; reflexivity).
    + destruct (is_Exception e);
        destruct (git.rmtree clone_dir) as [[]|e'];
        try destruct (is_Exception e');
        (eexists; split; [reflexivity|]; intros _; eexists; reflexivity).
  - destruct (is_Exception e);
      destruct (git.rmtree clone_dir) as [[]|e'];
      try destruct (is_Exception e');
      (eexists; split; [reflexivity|]; intros H; discriminate H).
Qed.

(** ** Settings validation *)

Section ValidatorFacts.
Import validators.

Lemma lstrip_no_leading_space (s : text) : no_leading_space (lstrip s).
Proof.
  induction s as [|c s IH]; simpl; [exact I|].
  destruct (is_space c) eqn:E; [exact IH|exact E].
Qed.

Lemma lstrip_id (s : text) : no_leading_space s -> lstrip s = s.
Proof. destruct s as [|c s]; simpl; [reflexivity|]. now intros ->. Qed.

Lemma rstrip_unfold (c : N) (s : text) :
  rstrip (c :: s)
  = match rstrip s with
    | [] => if is_space c then [] else [c]
    | r => c :: r
    end.
Proof. reflexivity. Qed.

Lemma rstrip_cons (c : N) (s : text) :
  is_space c = false -> rstrip (c :: s) = c :: rstrip s.
Proof. intros Hc. rewrite rstrip_unfold, Hc. now destruct (rstrip s). Qed.

Lemma rstrip_no_leading_space (s : text) :
  no_leading_space s -> no_leading_space (rstrip s).
Proof.
  destruct s as [|c s]; [intros _; exact I|].
  intros Hc. simpl in Hc. rewrite (rstrip_cons _ _ Hc). exact Hc.
Qed.

Lemma rstrip_idem (s : text) : rstrip (rstrip s) = rstrip s.
Proof.
  induction s as [|c s IH]; [reflexivity|].
  rewrite rstrip_unfold. destruct (rstrip s) as [|a r] eqn:E.
  - destruct (is_space c) eqn:Ec; [reflexivity|].
    rewrite rstrip_unfold. simpl. now rewrite Ec.
  - rewrite rstrip_unfold, IH. reflexivity.
Qed.

Lemma strip_no_leading_space (s : text) : no_leading_space (strip s).
Proof. apply rstrip_no_leading_space, lstrip_no_leading_space. Qed.

(** Stripping a stripped text changes nothing. *)
Lemma strip_idem (s : text) : strip (strip s) = strip s.
Proof.
  unfold strip at 1. rewrite (lstrip_id _ (strip_no_leading_space s)).
  unfold strip. apply rstrip_idem.
Qed.

Lemma strip_fixed (s : text) :
  strip s = s <-> no_leading_space s /\ rstrip s = s.
Proof.
  split.
  - intros E. split.
    + rewrite <- E. apply strip_no_leading_space.
    + rewrite <- E at 1. unfold strip. rewrite rstrip_idem. exact E.
  - intros [Hl Hr]. unfold strip. now rewrite (lstrip_id _ Hl).
Qed.

(** White space only, from either end. *)
Lemma lstrip_nil_iff (t : text) :
  lstrip t = [] <-> forallb is_space t = true.
Proof.
  induction t as [|c t IH]; simpl; [tauto|].
  destruct (is_space c); simpl; [exact IH|]. split; discriminate.
Qed.

Lemma rstrip_nil_iff (t : text) :
  rstrip t = [] <-> forallb is_space t = true.
Proof.
  induction t as [|c t IH]; [simpl; tauto|].
  rewrite rstrip_unfold. simpl forallb.
  destruct (rstrip t) as [|a r].
  - destruct (is_space c); simpl.
    + split; [intros _; now apply IH|reflexivity].
    + split; discriminate.
  - split; [discriminate|].
    intros [_ Ht]%andb_true_iff. apply IH in Ht. discriminate.
Qed.

Lemma strip_nil_iff (t : text) : strip t = [] <-> forallb is_space t = true.
Proof.
  unfold strip. split.
  - intros H. destruct (lstrip t) as [|c r] eqn:E; [now apply lstrip_nil_iff|].
    pose proof (lstrip_no_leading_space t) as Hn. rewrite E in Hn. simpl in Hn.
    rewrite (rstrip_cons _ _ Hn) in H. discriminate.
  - intros H. apply lstrip_nil_iff in H. now rewrite H.
Qed.

Lemma nonempty_true_iff (s : text) : nonempty s = true <-> s <> [].
Proof. destruct s; simpl; split; congruence. Qed.

Lemma nonempty_false_iff (s : text) : nonempty s = false <-> s = [].
Proof. destruct s; simpl; split; congruence. Qed.

Lemma starts_with_split (p s : text) :
  starts_with p s = true -> exists rest, s = p ++ rest.
Proof.
  revert s. induction p as [|a p IH]; intros s; simpl.
  - intros _. now exists s.
  - destruct s as [|b s]; [discriminate|].
    intros [Hab Hp]%andb_true_iff. apply N.eqb_eq in Hab. subst b.
    destruct (IH _ Hp) as [rest ->]. now exists rest.
Qed.

(** A prefix free of white space survives [rstrip]. *)
Lemma starts_with_rstrip (p s : text) :
  forallb (fun c => negb (is_space c)) p = true ->
  starts_with p s = true -> starts_with p (rstrip s) = true.
Proof.
  revert s. induction p as [|a p IH]; intros s; [reflexivity|].
  simpl forallb. intros [Ha Hp]%andb_true_iff. apply negb_true_iff in Ha.
  destruct s as [|b s]; [discriminate|].
  simpl starts_with at 1. intros [Hab Hs]%andb_true_iff.
  pose proof Hab as Hab'. apply N.eqb_eq in Hab'. subst b.
  rewrite (rstrip_cons _ _ Ha). simpl. rewrite Hab. now apply IH.
Qed.

Lemma URL_REGEX_match_rstrip (v : text) :
  URL_REGEX_match v = true -> URL_REGEX_match (rstrip v) = true.
Proof.
  unfold URL_REGEX_match. intros [H|H]%orb_true_iff; apply orb_true_iff.
  - left. now apply starts_with_rstrip.
  - right. now apply starts_with_rstrip.
Qed.

Lemma URL_REGEX_match_no_leading_space (v : text) :
  URL_REGEX_match v = true -> no_leading_space v /\ v <> [].
Proof.
  unfold URL_REGEX_match.
  intros [H|H]%orb_true_iff; apply starts_with_split in H as [rest ->];
    split; try reflexivity; discriminate.
Qed.

(** X15: [validate_endpoint_url] accepts exactly the values that start
    with [http://] or [https://]; it stores the value without the white
    space at its end, and the stored value still starts with [http://] or
    [https://], has no white space at either end, and is accepted unchanged
    when validated again. *)
Theorem validate_endpoint_url_result (v : text) :
  match validate_endpoint_url v with
  | Accepted r =>
      URL_REGEX_match v = true
      /\ r = rstrip v
      /\ URL_REGEX_match r = true
      /\ strip r = r
      /\ validate_endpoint_url r = Accepted r
  | ValueError msg =>
      URL_REGEX_match v = false
      /\ (msg = literal "S3_ENDPOINT_URL must be configured"
          \/ msg = literal "Invalid S3_ENDPOINT_URL: " ++ v
                   ++ literal ". Must be a valid http(s) URL.")
  end.
Proof.
  unfold validate_endpoint_url.
  destruct (negb (nonempty v) || negb (nonempty (strip v))) eqn:E1.
  - split; [|now left].
    destruct (URL_REGEX_match v) eqn:Em; [|reflexivity].
    destruct (URL_REGEX_match_no_leading_space _ Em) as [Hl Hne].
    pose proof (URL_REGEX_match_rstrip _ Em) as Hr.
    destruct (URL_REGEX_match_no_leading_space _ Hr) as [_ Hne2].
    apply orb_true_iff in E1 as [E|E]; apply negb_true_iff in E;
      apply nonempty_false_iff in E.
    + contradiction.
    + unfold strip in E. rewrite (lstrip_id _ Hl) in E. contradiction.
  - destruct (URL_REGEX_match v) eqn:Em; simpl negb; cbv iota.
    2:{ split; [reflexivity|now right]. }
    destruct (URL_REGEX_match_no_leading_space _ Em) as [Hl Hne].
    assert (Hs : strip v = rstrip v) by (unfold strip; now rewrite (lstrip_id _ Hl)).
    pose proof (URL_REGEX_match_rstrip _ Em) as Hr.
    destruct (URL_REGEX_match_no_leading_space _ Hr) as [Hl2 Hne2].
    split; [reflexivity|]. split; [exact Hs|].
    rewrite Hs. split; [exact Hr|].
    assert (Hfix : strip (rstrip v) = rstrip v).
    { apply strip_fixed. split; [exact Hl2|apply rstrip_idem]. }
    split; [exact Hfix|].
    rewrite Hfix, Hr.
    apply nonempty_true_iff in Hne2. rewrite Hne2. reflexivity.
Qed.

(** X16: a bucket name, access key or secret key is stored stripped of the
    white space around it; it is refused, with the validator's own message,
    exactly when nothing is left, and a stored value is accepted unchanged
    when validated again. *)
Theorem validate_required_result (v : text) :
  let ok (validate : text -> checked text) (message : string) :=
    match validate v with
    | Accepted r =>
        r = strip v /\ r <> [] /\ strip r = r /\ validate r = Accepted r
    | ValueError msg => strip v = [] /\ msg = literal message
    end in
  ok validate_bucket "S3_BUCKET must be configured"
  /\ ok validate_access_key "S3_ACCESS_KEY/MINIO_ROOT_USER must be configured"
  /\ ok validate_secret_key "S3_SECRET_KEY/MINIO_ROOT_PASSWORD must be configured".
Proof.
  assert (H : forall message,
             match validate_required message v with
             | Accepted r =>
                 r = strip v /\ r <> [] /\ strip r = r
                 /\ validate_required message r = Accepted r
             | ValueError msg => strip v = [] /\ msg = literal message
             end).
  { intros message. unfold validate_required.
    assert (Hv : (if nonempty v then v else []) = v) by (destruct v; reflexivity).
    rewrite Hv.
    destruct (nonempty (strip v)) eqn:E; simpl negb; cbv iota.
    - pose proof E as Hne. apply nonempty_true_iff in Hne.
      split; [reflexivity|]. split; [exact Hne|]. split; [apply strip_idem|].
      rewrite E. rewrite strip_idem, E. reflexivity.
    - split; [|reflexivity]. now apply nonempty_false_iff. }
  cbv zeta. unfold validate_bucket, validate_access_key, validate_secret_key.
  split; [apply H|]. split; apply H.
Qed.

(** *** Origins *)

Lemma check_origins_spec (urls acc : list text) :
  match check_origins urls acc with
  | Accepted l =>
      l = acc ++ urls /\ Forall (fun u => URL_REGEX_match u = true) urls
  | ValueError msg =>
      exists before bad after,
        urls = before ++ bad :: after
        /\ Forall (fun u => URL_REGEX_match u = true) before
        /\ URL_REGEX_match bad = false
        /\ msg = literal "Invalid CORS origin: " ++ bad
                 ++ literal ". Must be a valid http(s) URL."
  end.
Proof.
  revert acc. induction urls as [|u urls IH]; intros acc; simpl.
  - split; [now rewrite app_nil_r|constructor].
  - destruct (URL_REGEX_match u) eqn:E.
    + specialize (IH (acc ++ [u])).
      destruct (check_origins urls (acc ++ [u])) as [l|msg].
      * destruct IH as [-> Hall]. split; [now rewrite <- app_assoc|].
        now constructor.
      * destruct IH as (before & bad & after & -> & Hb & Hbad & ->).
        exists (u :: before), bad, after.
        split; [reflexivity|]. split; [now constructor|]. now split.
    + exists [], u, urls. split; [reflexivity|]. split; [constructor|].
      now split.
Qed.

(** The pieces of a text made of white space only are white space only. *)
Lemma split_on_spaces (c : N) (s : text) :
  forallb is_space s = true ->
  Forall (fun w => forallb is_space w = true) (split_on c s).
Proof.
  induction s as [|a s IH]; simpl.
  - intros _. constructor; [reflexivity|constructor].
  - intros [Ha Hs]%andb_true_iff. specialize (IH Hs).
    destruct (a =? c)%N.
    + constructor; [reflexivity|exact IH].
    + destruct (split_on c s) as [|w ws].
      * constructor; [simpl; now rewrite Ha|constructor].
      * inversion IH as [|? ? Hw Hws]; subst.
        constructor; [simpl; now rewrite Ha, Hw|exact Hws].
Qed.

(** X19: the list of allowed origins is the comma-separated items,
    stripped, without the empty ones, in their order; it is returned only
    when it is not empty and every item starts with [http://] or
    [https://]: the first item that does not makes the whole setting fail
    with that item named, and no partial list is returned. *)
Theorem cors_allow_urls_list_result (v : text) :
  let items :=
    List.map strip
      (List.filter (fun url => nonempty (strip url))
                   (split_on (N_of_ascii ",") v)) in
  match cors_allow_urls_list v with
  | Accepted l =>
      l = items /\ l <> []
      /\ Forall (fun u => URL_REGEX_match u = true /\ u <> [] /\ strip u = u) l
  | ValueError msg =>
      (items = []
       /\ (msg = literal "CORS_ALLOW_URLS must be a non-empty comma-separated string of URLs."
           \/ msg = literal "CORS_ALLOW_URLS must contain at least one valid URL."))
      \/ exists before bad after,
           items = before ++ bad :: after
           /\ Forall (fun u => URL_REGEX_match u = true) before
           /\ URL_REGEX_match bad = false
           /\ msg = literal "Invalid CORS origin: " ++ bad
                    ++ literal ". Must be a valid http(s) URL."
  end.
Proof.
  cbv zeta. unfold cors_allow_urls_list.
  set (items := List.map strip
                  (List.filter (fun url => nonempty (strip url))
                               (split_on (N_of_ascii ",") v))).
  assert (Hitems : Forall (fun u => u <> [] /\ strip u = u) items).
  { unfold items. apply List.Forall_forall. intros u Hu.
    apply List.in_map_iff in Hu as (w & <- & Hw).
    apply List.filter_In in Hw as [_ Hw].
    split; [now apply nonempty_true_iff|apply strip_idem]. }
  destruct (nonempty (strip v)) eqn:Ev; simpl negb; cbv iota.
  2:{ left. split; [|now left].
      apply nonempty_false_iff, strip_nil_iff in Ev.
      pose proof (split_on_spaces (N_of_ascii ",") v Ev) as Hall.
      destruct items as [|u us] eqn:Ei; [reflexivity|]. exfalso.
      assert (Hin : In u items) by (rewrite Ei; now left).
      unfold items in Hin.
      apply List.in_map_iff in Hin as (w & _ & Hw).
      apply List.filter_In in Hw as [Hw Hne].
      rewrite List.Forall_forall in Hall. specialize (Hall _ Hw).
      apply strip_nil_iff in Hall. rewrite Hall in Hne. discriminate. }
  destruct items as [|u us] eqn:Ei.
  - left. split; [reflexivity|now right].
  - pose proof (check_origins_spec (u :: us) []) as Hc.
    destruct (check_origins (u :: us) []) as [l|msg].
    + destruct Hc as [-> Hall]. cbn [app].
      split; [reflexivity|]. split; [discriminate|].
      apply List.Forall_forall. intros x Hx.
      rewrite List.Forall_forall in Hall, Hitems.
      destruct (Hitems _ Hx) as [H1 H2]. split; [now apply Hall|now split].
    + right. destruct Hc as (before & bad & after & Hb & Hbf & Hbad & ->).
      exists before, bad, after. repeat split; assumption.
Qed.

End ValidatorFacts.

(** *** The log level *)

Section LogLevel.
Import validators.

Lemma literal_inj (s t : string) : literal s = literal t -> s = t.
Proof.
  revert t. induction s as [|a s IH]; intros [|b t]; simpl; try discriminate.
  - reflexivity.
  - intros [= Hab Hst]. f_equal; [|now apply IH].
    rewrite <- (ascii_N_embedding a), <- (ascii_N_embedding b). now rewrite Hab.
Qed.

Lemma text_eqb_eq (s t : text) : text_eqb s t = true <-> s = t.
Proof.
  revert t. induction s as [|a s IH]; intros [|b t]; simpl;
    try (split; [discriminate|discriminate]).
  - tauto.
  - rewrite andb_true_iff, N.eqb_eq, IH. split.
    + now intros [-> ->].
    + now intros [= -> ->].
Qed.

Lemma in_levels_iff (r : text) :
  existsb (text_eqb r) VALID_LOG_LEVELS = true <-> In r VALID_LOG_LEVELS.
Proof.
  rewrite existsb_exists. split.
  - intros (l & Hin & Heq). apply text_eqb_eq in Heq. now subst l.
  - intros Hin. exists r. split; [exact Hin|]. now apply text_eqb_eq.
Qed.

Lemma validate_log_level_eq `{UnicodeCase} (v : text) :
  validate_log_level v
  = if existsb (text_eqb (upper v)) VALID_LOG_LEVELS
    then Accepted (upper v)
    else ValueError (literal "Invalid log_level: " ++ v
                     ++ literal ". Must be one of: " ++ sorted_log_levels).
Proof.
  unfold validate_log_level.
  now destruct (existsb (text_eqb (upper v)) VALID_LOG_LEVELS).
Qed.

(** A level name is its own upper case. *)
Lemma level_upper `{UnicodeCase} (r : text) :
  In r VALID_LOG_LEVELS -> upper r = r.
Proof.
  unfold VALID_LOG_LEVELS. intros (s & <- & Hin)%List.in_map_iff.
  simpl in Hin.
  destruct Hin as [<-|[<-|[<-|[<-|[<-|[]]]]]];
    match goal with
    | |- upper (literal ?s) = _ => exact (upper_ascii s eq_refl)
    end.
Qed.

(** X17: [validate_log_level] stores the upper case of the value, and
    accepts the value exactly when that upper case is one of the five level
    names, whatever [str.upper] does beyond ASCII; a stored value is
    accepted unchanged when validated again; a refused value is named, as
    given, in a message that lists the level names in alphabetical order.
    An ASCII spelling is accepted exactly when its letters, in upper case,
    spell a level name. *)
Theorem validate_log_level_result `{UnicodeCase} (v : text) :
  let names := ["DEBUG"; "INFO"; "WARNING"; "ERROR"; "CRITICAL"] in
  match validate_log_level v with
  | Accepted r =>
      r = upper v
      /\ In r (List.map literal names)
      /\ validate_log_level r = Accepted r
  | ValueError msg =>
      ~ In (upper v) (List.map literal names)
      /\ msg = literal "Invalid log_level: " ++ v
               ++ literal ". Must be one of: CRITICAL, DEBUG, ERROR, INFO, WARNING"
  end
  /\ forall s : string,
       is_ascii s = true -> v = literal s ->
       (In (ascii_upper s) names
        <-> validate_log_level v = Accepted (literal (ascii_upper s))).
Proof.
  cbv zeta.
  change (List.map literal ["DEBUG"; "INFO"; "WARNING"; "ERROR"; "CRITICAL"])
    with VALID_LOG_LEVELS.
  split.
  - rewrite validate_log_level_eq.
    destruct (existsb (text_eqb (upper v)) VALID_LOG_LEVELS) eqn:E.
    + apply in_levels_iff in E.
      split; [reflexivity|]. split; [exact E|].
      rewrite validate_log_level_eq, (level_upper _ E).
      apply in_levels_iff in E. now rewrite E.
    + split; [|reflexivity].
      intros Hin. apply in_levels_iff in Hin. congruence.
  - intros s Hs ->. rewrite validate_log_level_eq, (upper_ascii s Hs).
    split.
    + intros Hin.
      assert (Hl : In (literal (ascii_upper s)) VALID_LOG_LEVELS)
        by (unfold VALID_LOG_LEVELS; now apply List.in_map).
      apply in_levels_iff in Hl. now rewrite Hl.
    + destruct (existsb (text_eqb (literal (ascii_upper s))) VALID_LOG_LEVELS) eqn:E;
        [|discriminate].
      intros _. apply in_levels_iff in E. unfold VALID_LOG_LEVELS in E.
      apply List.in_map_iff in E as (n & Hn & Hin).
      apply literal_inj in Hn. now subst n.
Qed.

(** The sample case mapping upper-cases ASCII text as [str.upper] does. *)
Lemma upper_latin_ascii (s : string) :
  is_ascii s = true ->
  samples.upper_latin (literal s) = literal (ascii_upper s).
Proof.
  induction s as [|c s IH]; [reflexivity|].
  cbn [is_ascii urllib_parse.forallb_str]. unfold is_ascii in IH.
  intros [Hc Hs]%andb_true_iff.
  cbn [literal ascii_upper samples.upper_latin List.map].
  unfold samples.upper_latin in IH. rewrite (IH Hs). f_equal.
  clear IH Hs Hc.
  destruct c as [[] [] [] [] [] [] [] []]; vm_compute; reflexivity.
Qed.

#[global] Instance latin_case : UnicodeCase := {|
  upper := samples.upper_latin;
  upper_ascii := upper_latin_ascii
|}.

End LogLevel.

(** *** The environment flags *)

Section Environment.
Import core_settings.

(** X20: an environment name is never both a development and a production
    one, in any letter case; a name that is neither leaves both false. *)
Theorem development_excludes_production (app_env : string) :
  (is_development app_env && is_production app_env)%bool = false
  /\ (is_development app_env = true <->
      urllib_parse.lower app_env = "development"
      \/ urllib_parse.lower app_env = "dev")
  /\ (is_production app_env = true <->
      urllib_parse.lower app_env = "production"
      \/ urllib_parse.lower app_env = "prod").
Proof.
  unfold is_development, is_production. cbn [existsb].
  set (s := urllib_parse.lower app_env).
  rewrite !orb_false_r.
  split; [|split].
  - destruct (String.eqb_spec s "development") as [->|]; [reflexivity|].
    destruct (String.eqb_spec s "dev") as [->|]; reflexivity.
  - rewrite orb_true_iff, !String.eqb_eq. reflexivity.
  - rewrite orb_true_iff, !String.eqb_eq. reflexivity.
Qed.

End Environment.

(** *** The TLS flag *)

Section InferSsl.
Context {checks : HostChecks}.
Import core_settings.

Lemma prefix_split (p s : string) :
  String.prefix p s = true -> exists rest, s = p +:+ rest.
Proof.
  revert s. induction p as [|a p IH]; intros s; simpl.
  - intros _. now exists s.
  - destruct s as [|b s]; simpl; [intros H; discriminate H|].
    destruct (ascii_dec a b) as [->|]; [|intros H; discriminate H].
    intros Hp. destruct (IH _ Hp) as [rest ->]. now exists rest.
Qed.

Lemma URL_REGEX_match_nonempty (v : string) :
  URL_REGEX_match v = true -> nonempty v = true.
Proof.
  unfold URL_REGEX_match.
  intros [H|H]%orb_true_iff; apply prefix_split in H as [rest ->]; reflexivity.
Qed.

Lemma urlsplit_scheme_of_prefix (sch rest : string) (sr : urllib_parse.SplitResult) :
  sch = "http" \/ sch = "https" ->
  urllib_parse.urlsplit (sch +:+ String ":" rest) = Return sr ->
  urllib_parse.s_scheme sr = sch.
Proof.
  intros Hsch. unfold urllib_parse.urlsplit.
  assert (Hsplit : urllib_parse.split_scheme
                     (urllib_parse.remove_unsafe
                        (urllib_parse.lstrip_c0 (sch +:+ String ":" rest)))
                   = (sch, urllib_parse.remove_unsafe rest)).
  { destruct Hsch as [-> | ->]; reflexivity. }
  rewrite Hsplit.
  destruct (match urllib_parse.after_2slash (urllib_parse.remove_unsafe rest) with
            | Some r => urllib_parse._splitnetloc r
            | None => (EmptyString, urllib_parse.remove_unsafe rest)
            end) as [nl url].
  destruct (urllib_parse.netloc_error nl); [discriminate|].
  destruct (urllib_parse.split_at "#" url) as [u1 frag].
  destruct (urllib_parse.split_at "?" u1) as [u2 qry].
  now intros [= <-].
Qed.

Lemma URL_REGEX_match_split (v : string) :
  URL_REGEX_match v = true ->
  exists sch rest,
    (sch = "http" \/ sch = "https")
    /\ v = sch +:+ String ":" rest
    /\ String.prefix "https://" v = String.eqb sch "https".
Proof.
  unfold URL_REGEX_match. intros [H|H]%orb_true_iff.
  - apply prefix_split in H as [rest ->].
    exists "http", ("//" +:+ rest). split; [now left|]. split; reflexivity.
  - pose proof H as H'. apply prefix_split in H' as [rest ->].
    exists "https", ("//" +:+ rest). split; [now right|]. split; [reflexivity|].
    exact H.
Qed.

(** X18: for an endpoint that starts with [http://] or [https://], as a
    validated one does, an unset TLS flag becomes true exactly for
    [https://] and nothing else of the settings changes; a flag that was
    set is kept, and the endpoint is not parsed; the step fails only when
    [urlparse] refuses the endpoint. *)
Theorem infer_ssl_from_validated_endpoint (self : Settings) :
  URL_REGEX_match (s3_endpoint_url self) = true ->
  match s3_use_ssl self, infer_ssl_from_endpoint self with
  | None, Return s' =>
      s3_use_ssl s' = Some (String.prefix "https://" (s3_endpoint_url self))
      /\ s3_endpoint_url s' = s3_endpoint_url self
      /\ s3_bucket s' = s3_bucket self
      /\ s3_access_key s' = s3_access_key self
      /\ s3_secret_key s' = s3_secret_key self
      /\ s3_external_url s' = s3_external_url self
      /\ s3_region s' = s3_region self
      /\ s3_upload_expiration s' = s3_upload_expiration self
  | None, Raise e => urlparse (s3_endpoint_url self) = Raise e
  | Some b, o => o = Return self
  end.
Proof.
  intros Hm. unfold infer_ssl_from_endpoint.
  destruct (s3_use_ssl self) as [b|]; [reflexivity|].
  rewrite (URL_REGEX_match_nonempty _ Hm).
  destruct (URL_REGEX_match_split _ Hm) as (sch & rest & Hsch & Hv & Hpre).
  destruct (urlparse (s3_endpoint_url self)) as [parsed|e] eqn:Ep; [|reflexivity].
  cbn [s3_use_ssl s3_endpoint_url s3_bucket s3_access_key s3_secret_key
       s3_external_url s3_region s3_upload_expiration].
  split; [|repeat split].
  rewrite Hpre. do 2 f_equal.
  change (urllib_parse.urlparse (s3_endpoint_url self) = Return parsed) in Ep.
  destruct (urlparse_inv _ _ Ep) as (sr & Hsr & Hs & _).
  rewrite Hv in Hsr. rewrite Hs. exact (urlsplit_scheme_of_prefix _ _ _ Hsch Hsr).
Qed.

End InferSsl.

(** ** Responses *)

Section ResponsesFurther.
Context {urllib : UrlLib} {backend : S3Backend}.

Import file_service.

(** X21: a link that cannot be rewritten does not fail the request: when
    [urlparse] refuses the backend's URL or the configured external URL,
    the endpoint still answers 200, with the backend's URL as it came. *)
Theorem download_succeeds_when_rewriting_fails (self : FileService)
    (filename presigned_url ext : string) (e : exn) :
  external_url self = Some ext ->
  generate_presigned_url (_client self) "get_object"
    (get_object_params self filename) (upload_expiration self)
  = Return presigned_url ->
  urlparse presigned_url = Raise e \/ urlparse ext = Raise e ->
  app.respond app.body_download (Eff.result (importer.get_file filename self))
  = Return {| app.status := 200;
              app.body :=
                app.body_download
                  {| download_link := presigned_url;
                     dl_filename := filename;
                     dl_expires_in := upload_expiration self |} |}.
Proof.
  intros Hext Hb Hfail.
  unfold importer.get_file.
  rewrite get_file_eq, Hb, to_http_exception_eq. cbn [Eff.result snd app.respond].
  do 3 f_equal. unfold rewritten. rewrite Hext.
  destruct (String.eqb_spec ext "") as [->|Hne].
  - now rewrite replace_url_endpoint_falsy.
  - pose proof (replace_url_endpoint_spec presigned_url ext Hne) as S.
    destruct Hfail as [H|H].
    + rewrite H in S. now rewrite S.
    + rewrite H in S. destruct (urlparse presigned_url); now rewrite S.
Qed.

End ResponsesFurther.

Section GitMessages.
Context {env : git.GitEnv}.

(** X22: a text the workflow returns is one of three fixed texts or the
    commit error text with an exception's message; the text for a missing
    repository, which [commit_repo] has, is never returned by the workflow,
    which always hands [commit_repo] the repository it cloned. *)
Theorem run_workflow_messages (repo_url csv_file_path clone_dir msg : string) :
  Eff.result (git.run_workflow repo_url csv_file_path clone_dir) = Return msg ->
  (msg = "Workflow Failed at: Repository Cloning."
   \/ msg = "Commit Failed during push!"
   \/ msg = "Commit Successful! Data Imported Successfully!"
   \/ exists e, msg = "An error occurred during commit/push: " +:+ str_exn e)
  /\ msg <> "Commit Failed: Repository not cloned.".
Proof.
  intros Hr.
  assert (Hcases : msg = "Workflow Failed at: Repository Cloning."
                   \/ msg = "Commit Failed during push!"
                   \/ msg = "Commit Successful! Data Imported Successfully!"
                   \/ exists e, msg = "An error occurred during commit/push: "
                                      +:+ str_exn e).
  { revert Hr.
    unfold git.run_workflow, git.clone_repo, Eff.try_then, Eff.try_except at 1,
      Eff.call, Eff.raise, Eff.ret, Eff.result.
    destruct (git.clone_from repo_url clone_dir) as [repo|e].
    - unfold git.commit_repo, Eff.bind, Eff.try_except, Eff.call, Eff.ret,
        Eff.raise.
      destruct (git.index_add repo _) as [[]|e1].
      + destruct (git.index_commit repo _) as [[]|e2].
        * destruct (git.push repo "HEAD:main") as [infos|e3].
          -- destruct (git.push_failed infos);
               destruct (git.rmtree clone_dir) as [[]|e4];
               try destruct (is_Exception e4); cbn;
               intros [= <-]; auto.
          -- destruct (is_Exception e3);
               destruct (git.rmtree clone_dir) as [[]|e4];
               try destruct (is_Exception e4); cbn;
               intros [= <-]; eauto 6.
        * destruct (is_Exception e2);
            destruct (git.rmtree clone_dir) as [[]|e4];
            try destruct (is_Exception e4); cbn;
            intros [= <-]; eauto 6.
      + destruct (is_Exception e1);
          destruct (git.rmtree clone_dir) as [[]|e4];
          try destruct (is_Exception e4); cbn;
          intros [= <-]; eauto 6.
    - destruct (is_GitCommandError e); cbn.
      + intros [= <-]. auto.
      + destruct (is_RepositoryCloneError e); cbn; intros [= <-]; auto. }
  split; [exact Hcases|].
  destruct Hcases as [->|[->|[->|[e ->]]]]; discriminate.
Qed.

End GitMessages.

(** ** The further properties on concrete inputs *)

Lemma base_exception_passes_through_witness :
  let interrupt := PyBaseException "KeyboardInterrupt" "" in
  is_Exception interrupt = false
  /\ Eff.result
       (file_service.get_file_list (backend := samples.failing_backend interrupt)
          samples.service)
     = Raise interrupt.
Proof.
  cbv zeta. split; [reflexivity|].
  exact (proj1 (proj2 (proj2
    (base_exception_passes_through
       (backend := samples.failing_backend (PyBaseException "KeyboardInterrupt" ""))
       samples.service "report.csv" None
       (PyBaseException "KeyboardInterrupt" "") eq_refl)) eq_refl)).
Defined.

Lemma upload_grant_passes_backend_answer_witness :
  exists r,
    app.respond app.body_upload
      (Eff.result
         (importer.get_upload_link (backend := samples.working_backend)
            "report.csv" (Some "text/csv") samples.service))
    = Return {| app.status := 200; app.body := app.body_upload r |}
    /\ file_service.fields r !! "Content-Type" = Some "text/csv"
    /\ file_service.ul_expires_in r = 60.
Proof.
  eexists. split.
  - exact (proj1 (upload_grant_passes_backend_answer
                    (backend := samples.working_backend)
                    samples.service "report.csv" (Some "text/csv") _ eq_refl)).
  - split; [vm_compute; reflexivity|reflexivity].
Defined.

Lemma links_unchanged_without_external_url_witness :
  s3_external_url samples.settings_no_external = ""
  /\ exists r,
       Eff.result
         (importer.get_file (backend := samples.working_backend) "report.csv"
            (fst (file_service.__init__ samples.settings_no_external
                    file_service.fresh_process)))
       = Return r
       /\ file_service.download_link r
          = "http://internal-host:9000/test-bucket/report.csv?X-Amz-Expires=60".
Proof.
  split; [reflexivity|].
  exact (proj2 (links_unchanged_without_external_url
                  (backend := samples.working_backend)
                  samples.settings_no_external file_service.fresh_process
                  "report.csv" None eq_refl) _ eq_refl).
Defined.

Lemma download_link_carries_external_endpoint_witness :
  exists r,
    Eff.result
      (importer.get_file (backend := samples.working_backend) "report.csv"
         samples.service)
    = Return r
    /\ urlparse (file_service.download_link r)
       = Return {| scheme := "http"; netloc := "localhost:9001";
                   path := "/test-bucket/report.csv"; params := "";
                   query := "X-Amz-Expires=60"; fragment := "" |}.
Proof.
  exact (download_link_carries_external_endpoint
           (backend := samples.working_backend) samples.service "report.csv"
           "http://internal-host:9000/test-bucket/report.csv?X-Amz-Expires=60"
           "http://localhost:9001"
           {| scheme := "http"; netloc := "internal-host:9000";
              path := "/test-bucket/report.csv"; params := "";
              query := "X-Amz-Expires=60"; fragment := "" |}
           {| scheme := "http"; netloc := "localhost:9001";
              path := ""; params := ""; query := ""; fragment := "" |}
           eq_refl ltac:(discriminate) eq_refl eq_refl eq_refl
           ltac:(discriminate) ltac:(discriminate) eq_refl).
Defined.

Lemma get_file_list_passes_contents_witness :
  Eff.result
    (importer.get_file_list (backend := samples.listing_backend) samples.service)
  = Return (VList [ {["Key" := MStr "a.csv"; "Size" := MInt 12]};
                    {["Key" := MStr "b.csv"; "Size" := MInt 0]} ]).
Proof.
  exact (get_file_list_passes_contents (backend := samples.listing_backend)
           samples.service _ eq_refl).
Defined.

Lemma replace_url_endpoint_idempotent_witness :
  file_service.replace_url_endpoint
    "http://localhost:9001/test-bucket/report.csv?X-Amz-Expires=60"
    (Some "http://localhost:9001")
  = Return "http://localhost:9001/test-bucket/report.csv?X-Amz-Expires=60".
Proof.
  exact (replace_url_endpoint_idempotent
           "http://internal-host:9000/test-bucket/report.csv?X-Amz-Expires=60"
           "http://localhost:9001"
           "http://localhost:9001/test-bucket/report.csv?X-Amz-Expires=60"
           {| scheme := "http"; netloc := "internal-host:9000";
              path := "/test-bucket/report.csv"; params := "";
              query := "X-Amz-Expires=60"; fragment := "" |}
           {| scheme := "http"; netloc := "localhost:9001";
              path := ""; params := ""; query := ""; fragment := "" |}
           ltac:(discriminate) eq_refl eq_refl
           ltac:(discriminate) ltac:(discriminate) eq_refl eq_refl).
Defined.

Lemma replace_url_endpoint_forgets_internal_endpoint_witness :
  file_service.replace_url_endpoint "http://internal-host:9000/b/k.csv?X=1"
    (Some "http://localhost:9001")
  = file_service.replace_url_endpoint "https://10.0.0.7:443/b/k.csv?X=1"
      (Some "http://localhost:9001").
Proof.
  exact (replace_url_endpoint_forgets_internal_endpoint
           "http://internal-host:9000/b/k.csv?X=1"
           "https://10.0.0.7:443/b/k.csv?X=1" "http://localhost:9001"
           {| scheme := "http"; netloc := "internal-host:9000";
              path := "/b/k.csv"; params := ""; query := "X=1"; fragment := "" |}
           {| scheme := "https"; netloc := "10.0.0.7:443";
              path := "/b/k.csv"; params := ""; query := "X=1"; fragment := "" |}
           {| scheme := "http"; netloc := "localhost:9001";
              path := ""; params := ""; query := ""; fragment := "" |}
           ltac:(discriminate) eq_refl eq_refl eq_refl eq_refl eq_refl eq_refl
           eq_refl).
Defined.

Lemma commit_repo_push_outcome_witness :
  Z.testbit 1032 10 = true
  /\ Eff.result
       (git.commit_repo (env := samples.push_rejected)
          (Some {| git.repo_origin := "https://example.org/repo.git";
                   git.repo_dir := "temp" |})
          "report.csv" "Add report.csv")
     = Return "Commit Failed during push!".
Proof.
  split; [reflexivity|].
  exact (commit_repo_push_outcome (env := samples.push_rejected)
           {| git.repo_origin := "https://example.org/repo.git";
              git.repo_dir := "temp" |}
           "report.csv" "Add report.csv" _ eq_refl eq_refl eq_refl).
Defined.

Lemma run_workflow_cleans_up_witness :
  let repo := {| git.repo_origin := "https://example.org/repo.git";
                 git.repo_dir := "temp" |} in
  git.run_workflow (env := samples.commit_and_cleanup_raise)
    "https://example.org/repo.git" "data/report.csv" "temp"
  = ([git.call_clone_from "https://example.org/repo.git" "temp";
      git.call_index_add repo ["report.csv"];
      git.call_index_commit repo "Add report.csv";
      git.call_rmtree "temp"],
     Return "An error occurred during commit/push: pre-commit hook failed").
Proof.
  cbv zeta.
  refine (run_workflow_cleans_up (env := samples.commit_and_cleanup_raise)
            "https://example.org/repo.git" "data/report.csv" "temp"
            {| git.repo_origin := "https://example.org/repo.git";
               git.repo_dir := "temp" |}
            "An error occurred during commit/push: pre-commit hook failed"
            eq_refl _ eq_refl).
  intros e [= <-]. reflexivity.
Defined.

Lemma run_workflow_stops_after_failed_clone_witness :
  git.run_workflow (env := samples.clone_raises (GitCommandError "exit code(128)"))
    "https://example.org/missing.git" "data/report.csv" "temp"
  = ([git.call_clone_from "https://example.org/missing.git" "temp"],
     Return "Workflow Failed at: Repository Cloning.").
Proof.
  exact (proj1 (run_workflow_stops_after_failed_clone
                  (env := samples.clone_raises (GitCommandError "exit code(128)"))
                  "https://example.org/missing.git" "data/report.csv" "temp"
                  _ eq_refl eq_refl)).
Defined.

Lemma run_workflow_stages_file_name_witness :
  git.path_name ("data/in" +:+ "/" +:+ "report.csv") = "report.csv"
  /\ git.path_name "report.csv" = "report.csv".
Proof.
  pose proof (run_workflow_stages_file_name (env := samples.working_git)
                "https://example.org/repo.git" "data/in" "report.csv" "temp"
                {| git.repo_origin := "https://example.org/repo.git";
                   git.repo_dir := "temp" |}
                eq_refl ltac:(discriminate) ltac:(discriminate) eq_refl)
    as (H1 & H2 & _).
  split; [exact H1|exact H2].
Defined.

Lemma infer_ssl_from_validated_endpoint_witness :
  core_settings.URL_REGEX_match (s3_endpoint_url samples.settings_bad_external) = true
  /\ exists s',
       core_settings.infer_ssl_from_endpoint samples.settings_bad_external = Return s'
       /\ s3_use_ssl s' = Some false.
Proof.
  split; [reflexivity|].
  eexists. split; [reflexivity|].
  exact (proj1 (infer_ssl_from_validated_endpoint samples.settings_bad_external
                  eq_refl)).
Defined.

Lemma download_succeeds_when_rewriting_fails_witness :
  let self := fst (file_service.__init__ samples.settings_bad_external
                     file_service.fresh_process) in
  urlparse "http://[::1:9001" = Raise (PyException "ValueError" "Invalid IPv6 URL")
  /\ app.respond app.body_download
       (Eff.result
          (importer.get_file (backend := samples.working_backend) "report.csv" self))
     = Return {| app.status := 200;
                 app.body :=
                   app.body_download
                     {| file_service.download_link :=
                          "http://internal-host:9000/test-bucket/report.csv?X-Amz-Expires=60";
                        file_service.dl_filename := "report.csv";
                        file_service.dl_expires_in := 60 |} |}.
Proof.
  cbv zeta. split; [reflexivity|].
  exact (download_succeeds_when_rewriting_fails
           (backend := samples.working_backend)
           (fst (file_service.__init__ samples.settings_bad_external
                   file_service.fresh_process))
           "report.csv"
           "http://internal-host:9000/test-bucket/report.csv?X-Amz-Expires=60"
           "http://[::1:9001" (PyException "ValueError" "Invalid IPv6 URL")
           eq_refl eq_refl (or_intror eq_refl)).
Defined.

Lemma run_workflow_messages_witness :
  Eff.result
    (git.run_workflow (env := samples.working_git)
       "https://example.org/repo.git" "data/report.csv" "temp")
  = Return "Commit Successful! Data Imported Successfully!"
  /\ "Commit Successful! Data Imported Successfully!"
     <> "Commit Failed: Repository not cloned.".
Proof.
  split; [reflexivity|].
  exact (proj2 (run_workflow_messages (env := samples.working_git)
                  "https://example.org/repo.git" "data/report.csv" "temp"
                  "Commit Successful! Data Imported Successfully!" eq_refl)).
Defined.


Lemma validate_log_level_result_witness :
  let dotless_i_nfo := [305; 110; 102; 111]%N in
  validators.validate_log_level (H := latin_case) dotless_i_nfo
  = validators.Accepted (validators.literal "INFO")
  /\ validators.validate_log_level (H := latin_case) (validators.literal "INFO")
     = validators.Accepted (validators.literal "INFO")
  /\ validators.validate_log_level (H := latin_case) (validators.literal "warning")
     = validators.Accepted (validators.literal "WARNING").
Proof.
  cbv zeta.
  destruct (validate_log_level_result (H := latin_case) [305; 110; 102; 111]%N)
    as [H1 _].
  destruct (validate_log_level_result (H := latin_case)
              (validators.literal "warning")) as [_ H2].
  split; [reflexivity|]. split.
  - exact (proj2 (proj2 H1)).
  - apply (H2 "warning" eq_refl eq_refl). simpl. tauto.
Defined.

Lemma validate_endpoint_url_result_witness :
  let em_space := 8195%N in
  let stored := validators.literal "https://minio:9000" in
  validators.validate_endpoint_url (stored ++ [em_space; 10%N])
  = validators.Accepted stored
  /\ validators.validate_endpoint_url stored = validators.Accepted stored
  /\ validators.validate_endpoint_url (em_space :: stored)
     = validators.ValueError
         (validators.literal "Invalid S3_ENDPOINT_URL: " ++ (em_space :: stored)
          ++ validators.literal ". Must be a valid http(s) URL.").
Proof.
  cbv zeta.
  assert (E : validators.validate_endpoint_url
                (validators.literal "https://minio:9000" ++ [8195%N; 10%N])
              = validators.Accepted (validators.literal "https://minio:9000"))
    by reflexivity.
  split; [exact E|]. split; [|reflexivity].
  generalize (validate_endpoint_url_result
                (validators.literal "https://minio:9000" ++ [8195%N; 10%N])).
  rewrite E. intros (_ & _ & _ & _ & H). exact H.
Defined.

Lemma validate_required_result_witness :
  let em_space := 8195%N in
  let stored := validators.literal "bucket" in
  validators.validate_bucket (em_space :: stored ++ [32%N])
  = validators.Accepted stored
  /\ validators.validate_bucket stored = validators.Accepted stored
  /\ validators.validate_secret_key [em_space; 160%N]
     = validators.ValueError
         (validators.literal "S3_SECRET_KEY/MINIO_ROOT_PASSWORD must be configured").
Proof.
  cbv zeta.
  assert (E : validators.validate_bucket
                (8195%N :: validators.literal "bucket" ++ [32%N])
              = validators.Accepted (validators.literal "bucket"))
    by reflexivity.
  split; [exact E|]. split; [|reflexivity].
  generalize (proj1 (validate_required_result
                       (8195%N :: validators.literal "bucket" ++ [32%N]))).
  rewrite E. intros (_ & _ & _ & H). exact H.
Defined.

Lemma cors_allow_urls_list_result_witness :
  let em_space := 8195%N in
  let a := validators.literal "http://a.example" in
  let b := validators.literal "https://b.example" in
  validators.cors_allow_urls_list
    (a ++ validators.literal " ," ++ [em_space] ++ b ++ validators.literal ",")
  = validators.Accepted [a; b]
  /\ validators.URL_REGEX_match a = true
  /\ validators.cors_allow_urls_list (a ++ validators.literal ",ftp://c.example")
     = validators.ValueError
         (validators.literal
            "Invalid CORS origin: ftp://c.example. Must be a valid http(s) URL.").
Proof.
  cbv zeta.
  set (v := validators.literal "http://a.example" ++ validators.literal " ,"
            ++ [8195%N] ++ validators.literal "https://b.example"
            ++ validators.literal ",").
  assert (E : validators.cors_allow_urls_list v
              = validators.Accepted [validators.literal "http://a.example";
                                     validators.literal "https://b.example"])
    by reflexivity.
  split; [exact E|]. split; [|reflexivity].
  generalize (cors_allow_urls_list_result v).
  rewrite E. intros (_ & _ & H).
  apply List.Forall_inv in H. exact (proj1 H).
Defined.
